(** * G-code handlers of the Exclude Region plugin

    A shallow embedding of [octoprint_excluderegion/GcodeHandlers.py]:
    the command tokenizer, the arc planner, the centre-offset solver, the
    dispatcher and the per-code handlers, followed by the properties the
    specification states about them.

    Conventions of the embedding.
    - A Python [float] is a real number ([R]): the development is about the
      algorithm, not about rounding, overflow or NaN.  Python [int] is [Z].
    - A Python exception is a value of [Exn]; a computation that may raise
      returns a [Result].
    - [self.state] is a record with the command counter, the position object
      and the rest of the collaborator's data; the methods the handlers call
      on it, whose code is not part of this module, are the fields of two
      interfaces ([AxisPosition], [ExcludeRegionStateApi]).
    - The regular expressions are the functions [REGEX_SPLIT_split] and
      [REGEX_FLOAT_ARG_search], written from the patterns.
    - The calls of the logger change nothing that a handler reads or
      returns and are left out, and so is [handleAtCommand], which none of
      the statements concerns. *)

From Stdlib Require Import Reals Lra Lia ZArith QArith Qreals.
From Stdlib Require Import String Ascii List Bool.
Import ListNotations.

Set Implicit Arguments.

(** ** Exceptions and results *)

Inductive Exn : Set :=
| ZeroDivisionError   (* float division by zero *)
| ValueError          (* math domain error *)
| IndexError.         (* string index out of range *)

Inductive Result (A : Type) : Type :=
| Return (a : A)
| Raise (e : Exn).

Arguments Return {A} a.
Arguments Raise {A} e.

Definition bind {A B : Type} (m : Result A) (k : A -> Result B) : Result B :=
  match m with
  | Return a => k a
  | Raise e => Raise e
  end.

Notation "x <- m ;; k" := (bind m (fun x => k))
  (at level 61, m at next level, right associativity).

(** ** The arithmetic of the [math] module, on real numbers *)

Module PyMath.

Local Open Scope R_scope.

Definition Rltb (a b : R) : bool := if Rlt_dec a b then true else false.
Definition Reqb (a b : R) : bool := if Req_dec_T a b then true else false.

(** Truth value of a float: [bool(x)] is [x != 0]. *)
Definition truthy (a : R) : bool := negb (Reqb a 0).

(** [a / b] with a divisor that is not a literal. *)
Definition py_div (a b : R) : Result R :=
  if Reqb b 0 then Raise ZeroDivisionError else Return (a / b).

Definition hypot (a b : R) : R := sqrt (a * a + b * b).

(** [math.sqrt] raises [ValueError] (math domain error) below zero. *)
Definition math_sqrt (a : R) : Result R :=
  if Rltb a 0 then Raise ValueError else Return (sqrt a).

Definition atan2 (y x : R) : R :=
  if Rltb 0 x then atan (y / x)
  else if Rltb x 0 then
         (if Rltb y 0 then atan (y / x) - PI else atan (y / x) + PI)
  else if Rltb 0 y then PI / 2
  else if Rltb y 0 then - (PI / 2)
  else 0.

(** [math.ceil], as an integer. *)
Definition ceil (a : R) : Z := (- Int_part (- a))%Z.

End PyMath.

Import PyMath.

Local Open Scope string_scope.
Local Open Scope list_scope.
Local Open Scope R_scope.

(** ** Module constants (lines 22-25) *)

Definition INCHES_PER_MM : R := 254 / 10.
Definition MM_PER_ARC_SEGMENT : R := 1.
Definition TWO_PI : R := 2 * PI.

(** ** The arc planner (lines 56-123) *)

(** Lines 89-97: the angle between the current position [(x, y)] and the
    target, seen from the centre [(x + i, y + j)]; counter-clockwise it
    lies in [0, 2 pi), clockwise a full turn below. *)
Definition arcSweep (x y endX endY i j : R) (clockwise : bool) : R :=
  let centerX := x + i in
  let centerY := y + j in
  let rtX := endX - centerX in
  let rtY := endY - centerY in
  let angularTravel := atan2 (- i * rtY + j * rtX) (- i * rtX - j * rtY) in
  let angularTravel :=
    if Rltb angularTravel 0 then angularTravel + TWO_PI else angularTravel in
  if clockwise then angularTravel - TWO_PI else angularTravel.

(** Lines 99-101: a sweep of 0 back to the current position is a circle. *)
Definition arcAngularTravel (x y endX endY i j : R) (clockwise : bool) : R :=
  let angularTravel := arcSweep x y endX endY i j clockwise in
  if Reqb angularTravel 0 && Reqb x endX && Reqb y endY
  then TWO_PI
  else angularTravel.

(** Lines 104-105. *)
Definition arcNumSegments (angularTravel radius : R) : Z :=
  let arcLength := angularTravel * radius in
  Z.min (ceil (arcLength / MM_PER_ARC_SEGMENT)) 2.

(** Lines 112-114: the body of [for dummy in range(1, numSegments)], run
    [steps] times. *)
Fixpoint arcPoints (steps : nat) (angle angularIncrement centerX centerY radius : R)
  : list R :=
  match steps with
  | O => []
  | S steps' =>
      let angle := angle + angularIncrement in
      [centerX + cos angle * radius; centerY + sin angle * radius]
        ++ arcPoints steps' angle angularIncrement centerX centerY radius
  end.

(** [planArc] with the current position [(x, y)] already read from the state
    (lines 86-123). *)
Definition planArcFrom (x y endX endY i j : R) (clockwise : bool)
  : Result (list R) :=
  let radius := hypot i j in
  let centerX := x + i in
  let centerY := y + j in
  let angularTravel := arcAngularTravel x y endX endY i j clockwise in
  let numSegments := arcNumSegments angularTravel radius in
  let angle := atan2 (- i) (- j) in
  angularIncrement <- py_div angularTravel (IZR (numSegments - 1)) ;;
  let rval :=
    arcPoints (Z.to_nat (numSegments - 1)) angle angularIncrement
      centerX centerY radius in
  Return (rval ++ [endX; endY]).

(** ** The command tokenizer (lines 18-20) *)

Module Tokenizer.

Local Open Scope string_scope.
Local Open Scope nat_scope.

Definition code (c : ascii) : nat := nat_of_ascii c.

(** [\s] on a [str], for the characters 0 to 255: the space, the controls
    9 to 13 (tab, line feed, vertical tab, form feed, carriage return), the
    separators 28 to 31, the next-line control 133 and the no-break space
    160. *)
Definition is_space (c : ascii) : bool :=
  (code c =? 32) || ((9 <=? code c) && (code c <=? 13))
  || ((28 <=? code c) && (code c <=? 31)) || (code c =? 133) || (code c =? 160).

Definition is_upper (c : ascii) : bool := (65 <=? code c) && (code c <=? 90).
Definition is_lower (c : ascii) : bool := (97 <=? code c) && (code c <=? 122).

(** [[A-Za-z]] *)
Definition is_alpha (c : ascii) : bool := is_upper c || is_lower c.

(** [[0-9]] *)
Definition is_digit (c : ascii) : bool := (48 <=? code c) && (code c <=? 57).

(** [[-+]] *)
Definition is_sign (c : ascii) : bool := (code c =? 45) || (code c =? 43).

(** [\.] *)
Definition is_point (c : ascii) : bool := code c =? 46.

Definition upper_ascii (c : ascii) : ascii :=
  if is_lower c then ascii_of_nat (code c - 32) else c.

Definition lower_ascii (c : ascii) : ascii :=
  if is_upper c then ascii_of_nat (code c + 32) else c.

Fixpoint map_chars (f : ascii -> ascii) (s : string) : string :=
  match s with
  | EmptyString => EmptyString
  | String c s' => String (f c) (map_chars f s')
  end.

(** [str.upper] and [str.lower]. *)
Definition upper (s : string) : string := map_chars upper_ascii s.
Definition lower (s : string) : string := map_chars lower_ascii s.

(** [s.startswith(c)] for a one-character prefix. *)
Definition startswith (s : string) (c : ascii) : bool :=
  match s with
  | String d _ => Ascii.eqb d c
  | EmptyString => false
  end.

(** *** [REGEX_SPLIT = "(?<!^)\s*(?=[A-Za-z])"] *)

(** [\s*(?=[A-Za-z])] matches at the head of [s]: the run of white space
    that starts there is followed by a letter. *)
Fixpoint spaces_then_letter (s : string) : bool :=
  match s with
  | EmptyString => false
  | String c s' => if is_space c then spaces_then_letter s' else is_alpha c
  end.

Definition cons_char (c : ascii) (pieces : list string) : list string :=
  match pieces with
  | [] => [String c EmptyString]
  | p :: ps => String c p :: ps
  end.

(** One left-to-right scan of the command.  [at_start] says that the scan
    is at offset 0, where the look-behind [(?<!^)] refuses a match;
    [in_sep] says that the scan is inside a separator that has matched.

    [re.split] is modelled as Python 3.7 and later run it: the string is
    cut at every match, the empty ones too.  The pattern matches a run of
    white space that a letter follows, and it matches the empty string
    before a letter; so a piece ends where such a run begins and before
    every letter but the first character, and the letter that follows a
    run is found once more, by an empty match at the end of the run: an
    empty piece lies between the two matches. *)
Fixpoint split_scan (at_start in_sep : bool) (s : string) : list string :=
  match s with
  | EmptyString => [EmptyString]
  | String c s' =>
      if is_space c then
        if in_sep then split_scan false true s'
        else if negb at_start && spaces_then_letter s'
             then EmptyString :: split_scan false true s'
             else cons_char c (split_scan false false s')
      else if is_alpha c && negb at_start
           then EmptyString :: cons_char c (split_scan false false s')
           else cons_char c (split_scan false false s')
  end.

(** [REGEX_SPLIT.split(cmd)] *)
Definition REGEX_SPLIT_split (cmd : string) : list string :=
  split_scan true false cmd.

(** *** [REGEX_FLOAT_ARG = "^(?P<label>[A-Za-z])\s*(?P<value>[-+]?[0-9]*\.?[0-9]+)"] *)

Fixpoint skip_spaces (s : string) : string :=
  match s with
  | EmptyString => EmptyString
  | String c s' => if is_space c then skip_spaces s' else s
  end.

(** The longest prefix of digits, and what follows it. *)
Fixpoint take_digits (s : string) : string * string :=
  match s with
  | EmptyString => (EmptyString, EmptyString)
  | String c s' =>
      if is_digit c
      then let (d, r) := take_digits s' in (String c d, r)
      else (EmptyString, s)
  end.

Definition nonempty (s : string) : bool :=
  match s with EmptyString => false | String _ _ => true end.

Definition take_sign (s : string) : string * string :=
  match s with
  | String c s' => if is_sign c then (String c EmptyString, s') else (EmptyString, s)
  | EmptyString => (EmptyString, EmptyString)
  end.

(** The text [[-+]?[0-9]*\.?[0-9]+] matches at the head of [s]: a sign if
    there is one, the digits, and a point with the digits after it when at
    least one digit follows the point; at least one digit overall. *)
Definition match_float_pattern (s : string) : option string :=
  let (sign, s1) := take_sign s in
  let (d1, s2) := take_digits s1 in
  let whole := if nonempty d1 then Some (sign ++ d1)%string else None in
  match s2 with
  | String c s3 =>
      if is_point c then
        let (d2, _) := take_digits s3 in
        if nonempty d2 then Some (sign ++ d1 ++ "." ++ d2)%string else whole
      else whole
  | EmptyString => whole
  end.

(** [REGEX_FLOAT_ARG.search(token)]: the groups [label] and [value]. *)
Definition REGEX_FLOAT_ARG_search (token : string) : option (ascii * string) :=
  match token with
  | EmptyString => None
  | String c rest =>
      if is_alpha c then
        match match_float_pattern (skip_spaces rest) with
        | Some value => Some (c, value)
        | None => None
        end
      else None
  end.

(** *** [float(value)] on a matched literal *)

Definition digit_value (c : ascii) : Z := (Z.of_nat (code c) - 48)%Z.

Fixpoint digits_to_Z (s : string) (acc : Z) : Z :=
  match s with
  | EmptyString => acc
  | String c s' => digits_to_Z s' (10 * acc + digit_value c)%Z
  end.

(** The exact value of a literal [[-+]?[0-9]*\.?[0-9]+]. *)
Definition float_literal (value : string) : Q :=
  let (sign, body) := take_sign value in
  let (d1, rest) := take_digits body in
  let d2 := match rest with
            | String c r => if is_point c then fst (take_digits r) else EmptyString
            | EmptyString => EmptyString
            end in
  let n := digits_to_Z (d1 ++ d2)%string 0 in
  let n := if startswith sign "-" then (- n)%Z else n in
  Qmake n (Z.to_pos (10 ^ Z.of_nat (String.length d2))).

Definition float_ (value : string) : R := Q2R (float_literal value).

End Tokenizer.

Import Tokenizer.

(** ** The state collaborator *)

Inductive Axis : Set := X_AXIS | Y_AXIS | Z_AXIS | E_AXIS.

(** What a handler returns: [None] (process the command normally), the
    marker that drops the command, or the commands to send instead. *)
Inductive GcodeResult : Set :=
| PyNone
| IGNORE_GCODE_CMD
| Commands (cmds : list string).

(** [RetractionState(firmwareRetract=..., originalCommand=...)] *)
Record RetractionState : Set := mkRetractionState {
  firmwareRetract : bool;
  originalCommand : string
}.

(** [self.state]: the command counter, [state.position], and the data of
    the collaborator that this module never reads. *)
Record ExcludeRegionState (Position Other : Type) : Type := mkState {
  numCommands : Z;
  position : Position;
  other : Other
}.

Arguments mkState {Position Other} numCommands position other.

(** The methods of the four axis objects of [state.position]. *)
Class AxisPosition (Position : Type) : Type := {
  current : Axis -> Position -> R;
  logicalToNative : Axis -> Position -> R -> R;
  setHome : Axis -> Position -> Position;
  setLogicalPosition : Axis -> R -> Position -> Position;
  setLogicalOffsetPosition : Axis -> R -> Position -> Position;
  setHomeOffset : Axis -> R -> Position -> Position
}.

(** The methods of [self.state] that the handlers call.  Each one receives
    the whole state and returns it, changed as it sees fit. *)
Class ExcludeRegionStateApi (Position Other : Type) : Type := {
  processLinearMoves :
    string -> option R -> option R -> option R -> list (option R) ->
    ExcludeRegionState Position Other ->
    GcodeResult * ExcludeRegionState Position Other;
  processExtendedGcode :
    string -> string -> option string ->
    ExcludeRegionState Position Other ->
    GcodeResult * ExcludeRegionState Position Other;
  recordRetraction :
    RetractionState -> GcodeResult ->
    ExcludeRegionState Position Other ->
    GcodeResult * ExcludeRegionState Position Other;
  recoverRetractionIfNeeded :
    GcodeResult -> string -> bool ->
    ExcludeRegionState Position Other ->
    GcodeResult * ExcludeRegionState Position Other;
  ignoreGcodeCommand :
    ExcludeRegionState Position Other ->
    GcodeResult * ExcludeRegionState Position Other;
  setUnitMultiplier :
    R -> ExcludeRegionState Position Other -> ExcludeRegionState Position Other;
  setAbsoluteMode :
    bool -> ExcludeRegionState Position Other -> ExcludeRegionState Position Other
}.

(** ** The handlers *)

Section Handlers.

Context {Position Other : Type}.
Context {axes : AxisPosition Position}.
Context {api : ExcludeRegionStateApi Position Other}.

Abbreviation State := (ExcludeRegionState Position Other).

(** What a handler method computes: the value it returns or the exception
    it raises, and the state it leaves. *)
Definition Handled : Type := (Result GcodeResult * State)%type.

Definition Handler : Type := string -> string -> option string -> State -> Handled.

(** A call of a method of the collaborator, which returns. *)
Definition returned (r : GcodeResult * State) : Handled :=
  (Return (fst r), snd r).

(** An update of [state.position] through a method of an axis. *)
Definition with_position (f : Position -> Position) (st : State) : State :=
  mkState (numCommands st) (f (position st)) (other st).

Definition label_is (label : ascii) (c : ascii) : bool := Ascii.eqb label c.

(** *** [planArc] (lines 56-123) *)

Definition planArc (st : State) (endX endY i j : R) (clockwise : bool)
  : Result (list R) :=
  let x := current X_AXIS (position st) in
  let y := current Y_AXIS (position st) in
  planArcFrom x y endX endY i j clockwise.

(** *** [_handle_G0], [_handle_G1] (lines 148-188) *)

Record LinearArgs : Type := mkLinearArgs {
  lin_extruderPosition : option R;
  lin_feedRate : option R;
  lin_x : option R;
  lin_y : option R;
  lin_z : option R
}.

(** The body of the loop over [cmdArgs[1:]] (lines 163-176). *)
Definition G0_arg (a : LinearArgs) (token : string) : LinearArgs :=
  match REGEX_FLOAT_ARG_search token with
  | Some (label, value) =>
      let label := upper_ascii label in
      let value := float_ value in
      if label_is label "E" then
        mkLinearArgs (Some value) (lin_feedRate a) (lin_x a) (lin_y a) (lin_z a)
      else if label_is label "F" then
        mkLinearArgs (lin_extruderPosition a) (Some value) (lin_x a) (lin_y a) (lin_z a)
      else if label_is label "X" then
        mkLinearArgs (lin_extruderPosition a) (lin_feedRate a) (Some value) (lin_y a) (lin_z a)
      else if label_is label "Y" then
        mkLinearArgs (lin_extruderPosition a) (lin_feedRate a) (lin_x a) (Some value) (lin_z a)
      else if label_is label "Z" then
        mkLinearArgs (lin_extruderPosition a) (lin_feedRate a) (lin_x a) (lin_y a) (Some value)
      else a
  | None => a
  end.

(** Lines 156-176: the five arguments that [_handle_G0] reads from [cmd]. *)
Definition G0_args (cmd : string) : LinearArgs :=
  fold_left G0_arg (tl (REGEX_SPLIT_split cmd))
    (mkLinearArgs None None None None None).

Definition _handle_G0 : Handler := fun cmd gcode subcode st =>
  let a := G0_args cmd in
  returned
    (processLinearMoves cmd (lin_extruderPosition a) (lin_feedRate a) (lin_z a)
       [lin_x a; lin_y a] st).

Definition _handle_G1 : Handler := fun cmd gcode subcode st =>
  _handle_G0 cmd gcode subcode st.

(** *** [_computeCenterOffsets] (lines 190-231) *)

(** Line 215. *)
Definition direction_flag (clockwise : bool) (radius : R) : Z :=
  Z.lxor (if clockwise then 1 else 0) (if Rltb radius 0 then -1 else 1).

Definition _computeCenterOffsets (st : State) (x y radius : R) (clockwise : bool)
  : Result (R * R) :=
  let p1 := current X_AXIS (position st) in
  let q1 := current Y_AXIS (position st) in
  let p2 := x in
  let q2 := y in
  if truthy radius && (negb (Reqb p1 p2) || negb (Reqb q1 q2)) then
    let e := direction_flag clockwise radius in
    let deltaX := p2 - p1 in
    let deltaY := q2 - q1 in
    let dist := hypot deltaX deltaY in
    let halfDist := dist / 2 in
    h <- math_sqrt (radius * radius - halfDist * halfDist) ;;
    let midX := (p1 + p2) / 2 in
    let midY := (q1 + q2) / 2 in
    sx <- py_div (- deltaY) dist ;;
    sy <- py_div (- deltaX) dist ;;
    let centerX := midX + IZR e * h * sx in
    let centerY := midY + IZR e * h * sy in
    Return (centerX - p1, centerY - q1)
  else Return (0, 0).

(** *** [_handle_G2], [_handle_G3] (lines 233-292) *)

Record ArcArgs : Type := mkArcArgs {
  arc_extruderPosition : option R;
  arc_feedRate : option R;
  arc_x : R;
  arc_y : R;
  arc_z : R;
  arc_radius : option R;
  arc_i : R;
  arc_j : R
}.

(** Lines 258-269: the [if]/[elif] chain on the label. *)
Definition G2_arg_xyzefr (pos : Position) (label : ascii) (value : R) (a : ArcArgs)
  : ArcArgs :=
  if label_is label "X" then
    mkArcArgs (arc_extruderPosition a) (arc_feedRate a)
      (logicalToNative X_AXIS pos value) (arc_y a) (arc_z a)
      (arc_radius a) (arc_i a) (arc_j a)
  else if label_is label "Y" then
    mkArcArgs (arc_extruderPosition a) (arc_feedRate a)
      (arc_x a) (logicalToNative Y_AXIS pos value) (arc_z a)
      (arc_radius a) (arc_i a) (arc_j a)
  else if label_is label "Z" then
    mkArcArgs (arc_extruderPosition a) (arc_feedRate a)
      (arc_x a) (arc_y a) (logicalToNative Z_AXIS pos value)
      (arc_radius a) (arc_i a) (arc_j a)
  else if label_is label "E" then
    mkArcArgs (Some (logicalToNative E_AXIS pos value)) (arc_feedRate a)
      (arc_x a) (arc_y a) (arc_z a) (arc_radius a) (arc_i a) (arc_j a)
  else if label_is label "F" then
    mkArcArgs (arc_extruderPosition a) (Some value)
      (arc_x a) (arc_y a) (arc_z a) (arc_radius a) (arc_i a) (arc_j a)
  else if label_is label "R" then
    mkArcArgs (arc_extruderPosition a) (arc_feedRate a)
      (arc_x a) (arc_y a) (arc_z a) (Some value) (arc_i a) (arc_j a)
  else a.

(** Lines 270-271. *)
Definition G2_arg_i (pos : Position) (label : ascii) (value : R) (a : ArcArgs)
  : ArcArgs :=
  if label_is label "I" then
    mkArcArgs (arc_extruderPosition a) (arc_feedRate a)
      (arc_x a) (arc_y a) (arc_z a) (arc_radius a)
      (logicalToNative X_AXIS pos value) (arc_j a)
  else a.

(** Lines 272-273. *)
Definition G2_arg_j (pos : Position) (label : ascii) (value : R) (a : ArcArgs)
  : ArcArgs :=
  if label_is label "J" then
    mkArcArgs (arc_extruderPosition a) (arc_feedRate a)
      (arc_x a) (arc_y a) (arc_z a) (arc_radius a)
      (arc_i a) (logicalToNative Y_AXIS pos value)
  else a.

(** The body of the loop over [cmdArgs[1:]] (lines 254-273). *)
Definition G2_arg (pos : Position) (a : ArcArgs) (token : string) : ArcArgs :=
  match REGEX_FLOAT_ARG_search token with
  | Some (label, value) =>
      let label := upper_ascii label in
      let value := float_ value in
      G2_arg_j pos label value
        (G2_arg_i pos label value (G2_arg_xyzefr pos label value a))
  | None => a
  end.

(** Lines 244-273. *)
Definition G2_args (pos : Position) (cmd : string) : ArcArgs :=
  fold_left (G2_arg pos) (tl (REGEX_SPLIT_split cmd))
    (mkArcArgs None None
       (current X_AXIS pos) (current Y_AXIS pos) (current Z_AXIS pos)
       None 0 0).

Definition _handle_G2 : Handler := fun cmd gcode subcode st =>
  let clockwise := String.eqb gcode "G2" in
  let a := G2_args (position st) cmd in
  let offsets :=
    match arc_radius a with
    | Some radius => _computeCenterOffsets st (arc_x a) (arc_y a) radius clockwise
    | None => Return (arc_i a, arc_j a)
    end in
  match offsets with
  | Raise e => (Raise e, st)
  | Return (i, j) =>
      if truthy i || truthy j then
        match planArc st (arc_x a) (arc_y a) i j clockwise with
        | Raise e => (Raise e, st)
        | Return xyPairs =>
            returned
              (processLinearMoves cmd (arc_extruderPosition a) (arc_feedRate a)
                 (Some (arc_z a)) (map Some xyPairs) st)
        end
      else (Return PyNone, st)
  end.

Definition _handle_G3 : Handler := fun cmd gcode subcode st =>
  _handle_G2 cmd gcode subcode st.

(** *** [_handle_G10], [_handle_G11] (lines 294-332) *)

(** Lines 303-306: [Return true] when the loop leaves through
    [return None]; indexing an empty token raises. *)
Fixpoint G10_tool_offset (tokens : list string) : Result bool :=
  match tokens with
  | [] => Return false
  | token :: rest =>
      match token with
      | EmptyString => Raise IndexError
      | String c _ =>
          let argType := upper_ascii c in
          if label_is argType "P" || label_is argType "L"
          then Return true
          else G10_tool_offset rest
      end
  end.

(** Lines 317-320 and 329-332. *)
Definition suppress_unless_replaced (r : GcodeResult * State) : Handled :=
  match fst r with
  | PyNone => returned (ignoreGcodeCommand (snd r))
  | returnCommands => (Return returnCommands, snd r)
  end.

Definition _handle_G10 : Handler := fun cmd gcode subcode st =>
  match G10_tool_offset (tl (REGEX_SPLIT_split cmd)) with
  | Raise e => (Raise e, st)
  | Return true => (Return PyNone, st)
  | Return false =>
      suppress_unless_replaced
        (recordRetraction (mkRetractionState true cmd) PyNone st)
  end.

Definition _handle_G11 : Handler := fun cmd gcode subcode st =>
  suppress_unless_replaced (recoverRetractionIfNeeded PyNone cmd true st).

(** *** [_handle_G20], [_handle_G21], [_handle_G90], [_handle_G91] *)

Definition _handle_G20 : Handler := fun cmd gcode subcode st =>
  (Return PyNone, setUnitMultiplier INCHES_PER_MM st).

Definition _handle_G21 : Handler := fun cmd gcode subcode st =>
  (Return PyNone, setUnitMultiplier 1 st).

Definition _handle_G90 : Handler := fun cmd gcode subcode st =>
  (Return PyNone, setAbsoluteMode true st).

Definition _handle_G91 : Handler := fun cmd gcode subcode st =>
  (Return PyNone, setAbsoluteMode false st).

(** *** [_handle_G28] (lines 342-375) *)

Record HomeFlags : Set := mkHomeFlags {
  homeX : bool;
  homeY : bool;
  homeZ : bool
}.

(** The body of the loop over every element of [cmdArgs] (lines 355-361). *)
Definition G28_arg (h : HomeFlags) (arg : string) : HomeFlags :=
  let arg := upper arg in
  if startswith arg "X" then mkHomeFlags true (homeY h) (homeZ h)
  else if startswith arg "Y" then mkHomeFlags (homeX h) true (homeZ h)
  else if startswith arg "Z" then mkHomeFlags (homeX h) (homeY h) true
  else h.

(** Lines 350-366. *)
Definition G28_flags (cmd : string) : HomeFlags :=
  let h := fold_left G28_arg (REGEX_SPLIT_split cmd) (mkHomeFlags false false false) in
  if negb (homeX h || homeY h || homeZ h)
  then mkHomeFlags true true true
  else h.

Definition home_if (flag : bool) (axis : Axis) (pos : Position) : Position :=
  if flag then setHome axis pos else pos.

Definition _handle_G28 : Handler := fun cmd gcode subcode st =>
  let h := G28_flags cmd in
  (Return PyNone,
   with_position
     (fun pos =>
        home_if (homeZ h) Z_AXIS (home_if (homeY h) Y_AXIS (home_if (homeX h) X_AXIS pos)))
     st).

(** *** [_handle_G92] (lines 385-410) *)

Definition G92_arg (pos : Position) (token : string) : Position :=
  match REGEX_FLOAT_ARG_search token with
  | Some (label, value) =>
      let label := upper_ascii label in
      let value := float_ value in
      if label_is label "E" then setLogicalPosition E_AXIS value pos
      else if label_is label "X" then setLogicalOffsetPosition X_AXIS value pos
      else if label_is label "Y" then setLogicalOffsetPosition Y_AXIS value pos
      else if label_is label "Z" then setLogicalOffsetPosition Z_AXIS value pos
      else pos
  | None => pos
  end.

Definition _handle_G92 : Handler := fun cmd gcode subcode st =>
  (Return PyNone,
   with_position (fun pos => fold_left G92_arg (tl (REGEX_SPLIT_split cmd)) pos) st).

(** *** [_handle_M206] (lines 412-430) *)

Definition M206_arg (pos : Position) (token : string) : Position :=
  match REGEX_FLOAT_ARG_search token with
  | Some (label, value) =>
      let label := upper_ascii label in
      let value := float_ value in
      if label_is label "X" then setHomeOffset X_AXIS value pos
      else if label_is label "Y" then setHomeOffset Y_AXIS value pos
      else if label_is label "Z" then setHomeOffset Z_AXIS value pos
      else pos
  | None => pos
  end.

Definition _handle_M206 : Handler := fun cmd gcode subcode st =>
  (Return PyNone,
   with_position (fun pos => fold_left M206_arg (tl (REGEX_SPLIT_split cmd)) pos) st).

(** *** [handleGcode] (lines 125-146) *)

(** The attributes of the object whose name is ["_handle_" + gcode]. *)
Definition handler_table : list (string * Handler) :=
  [ ("G0", _handle_G0); ("G1", _handle_G1); ("G2", _handle_G2);
    ("G3", _handle_G3); ("G10", _handle_G10); ("G11", _handle_G11);
    ("G20", _handle_G20); ("G21", _handle_G21); ("G28", _handle_G28);
    ("G90", _handle_G90); ("G91", _handle_G91); ("G92", _handle_G92);
    ("M206", _handle_M206) ]%string.

Fixpoint lookup (gcode : string) (table : list (string * Handler)) : option Handler :=
  match table with
  | [] => None
  | (name, h) :: rest => if String.eqb gcode name then Some h else lookup gcode rest
  end.

(** [getattr(self, "_handle_" + gcode, self.state.processExtendedGcode)] *)
Definition getattr_handle (gcode : string) : Handler :=
  match lookup gcode handler_table with
  | Some method => method
  | None => fun cmd gcode subcode st => returned (processExtendedGcode cmd gcode subcode st)
  end.

(** Line 144. *)
Definition count_command (st : State) : State :=
  mkState (numCommands st + 1) (position st) (other st).

Definition handleGcode : Handler := fun cmd gcode subcode st =>
  let st := count_command st in
  let method := getattr_handle gcode in
  method cmd gcode subcode st.

End Handlers.

(** ** A printer with no exclusion logic

    The smallest collaborator: an axis holds its native position and no
    offset, a logical value is its native value, and every command is
    passed through.  It is the state on which the statements below are run
    on concrete commands. *)

Module Bench.

Definition Position : Type := Axis -> R.
Definition Other : Type := unit.

Definition axis_eqb (a b : Axis) : bool :=
  match a, b with
  | X_AXIS, X_AXIS | Y_AXIS, Y_AXIS | Z_AXIS, Z_AXIS | E_AXIS, E_AXIS => true
  | _, _ => false
  end.

Definition put (a : Axis) (v : R) (pos : Position) : Position :=
  fun b => if axis_eqb a b then v else pos b.

#[global] Instance axes : AxisPosition Position := {
  current := fun a pos => pos a;
  logicalToNative := fun _ _ v => v;
  setHome := fun a pos => put a 0 pos;
  setLogicalPosition := fun a v pos => put a v pos;
  setLogicalOffsetPosition := fun _ _ pos => pos;
  setHomeOffset := fun _ _ pos => pos
}.

Definition State : Type := ExcludeRegionState Position Other.

#[global] Instance api : ExcludeRegionStateApi Position Other := {
  processLinearMoves := fun _ _ _ _ _ st => (PyNone, st);
  processExtendedGcode := fun _ _ _ st => (PyNone, st);
  recordRetraction := fun _ _ st => (PyNone, st);
  recoverRetractionIfNeeded := fun _ _ _ st => (PyNone, st);
  ignoreGcodeCommand := fun st => (IGNORE_GCODE_CMD, st);
  setUnitMultiplier := fun _ st => st;
  setAbsoluteMode := fun _ st => st
}.

(** The same printer with a collaborator that replaces a firmware retraction
    by a move of the extruder. *)
Definition api_replacing : ExcludeRegionStateApi Position Other := {|
  processLinearMoves := fun _ _ _ _ _ st => (PyNone, st);
  processExtendedGcode := fun _ _ _ st => (PyNone, st);
  recordRetraction := fun _ _ st => (Commands ["G1 E-1 F2400"], st);
  recoverRetractionIfNeeded := fun _ _ _ st => (Commands ["G1 E1 F2400"], st);
  ignoreGcodeCommand := fun st => (IGNORE_GCODE_CMD, st);
  setUnitMultiplier := fun _ st => st;
  setAbsoluteMode := fun _ st => st
|}.

(** Every axis at 0, no command seen yet. *)
Definition origin : State := mkState 0%Z (fun _ => 0) tt.

End Bench.

(** ** Vocabulary of the statements *)

(** A map on characters that changes at most the case of a letter:
    [upper_ascii] and [lower_ascii] are the two used below. *)
Record case_map (f : ascii -> ascii) : Prop := {
  cm_space : forall c, is_space (f c) = is_space c;
  cm_alpha : forall c, is_alpha (f c) = is_alpha c;
  cm_upper : forall c, upper_ascii (f c) = upper_ascii c;
  cm_other : forall c, is_alpha c = false -> f c = c
}.

(** The arguments of a command: label, in upper case, and literal of each
    token after the first that [REGEX_FLOAT_ARG] matches. *)
Definition labelled_arg (token : string) : list (ascii * string) :=
  match REGEX_FLOAT_ARG_search token with
  | Some (label, value) => [(upper_ascii label, value)]
  | None => []
  end.

Definition labelled_args (cmd : string) : list (ascii * string) :=
  flat_map labelled_arg (tl (REGEX_SPLIT_split cmd)).

(** A string of white space. *)
Fixpoint all_spaces (s : string) : bool :=
  match s with
  | EmptyString => true
  | String c s' => is_space c && all_spaces s'
  end.

(** A string with no letter, and one with no letter after its first
    character. *)
Fixpoint no_letter (s : string) : bool :=
  match s with
  | EmptyString => true
  | String c s' => negb (is_alpha c) && no_letter s'
  end.

Definition letter_first_only (piece : string) : bool :=
  match piece with
  | EmptyString => true
  | String _ rest => no_letter rest
  end.

(** A piece of a command that begins with a letter. *)
Definition begins_with_letter (token : string) : Prop :=
  exists c rest, token = String c rest /\ is_alpha c = true.

(** A token that begins with P or L, in either case. *)
Definition begins_with_P_or_L (token : string) : bool :=
  match token with
  | EmptyString => false
  | String c _ => label_is (upper_ascii c) "P" || label_is (upper_ascii c) "L"
  end.

(** The operation codes whose handler has no [return] statement. *)
Definition state_only_codes : list string :=
  ["G20"; "G21"; "G28"; "G90"; "G91"; "G92"; "M206"]%string.

Section Vocabulary.

Context {Position Other : Type}.
Context {axes : AxisPosition Position}.
Context {api : ExcludeRegionStateApi Position Other}.

(** The methods of the collaborator leave the command counter alone. *)
Definition keeps_numCommands : Prop :=
  (forall cmd e f z xy st,
      numCommands (snd (processLinearMoves cmd e f z xy st)) = numCommands st)
  /\ (forall cmd gcode subcode st,
         numCommands (snd (processExtendedGcode cmd gcode subcode st)) = numCommands st)
  /\ (forall retraction commands st,
         numCommands (snd (recordRetraction retraction commands st)) = numCommands st)
  /\ (forall commands cmd fw st,
         numCommands (snd (recoverRetractionIfNeeded commands cmd fw st)) = numCommands st)
  /\ (forall st, numCommands (snd (ignoreGcodeCommand st)) = numCommands st)
  /\ (forall factor st, numCommands (setUnitMultiplier factor st) = numCommands st)
  /\ (forall mode st, numCommands (setAbsoluteMode mode st) = numCommands st).

(** A G2 or G3 command with no R argument. *)
Definition no_radius_argument (cmd : string) : Prop :=
  forall value, ~ In ("R"%char, value) (labelled_args cmd).

(** Every I and every J argument of the command is a native offset of 0. *)
Definition zero_centre_offsets (st : ExcludeRegionState Position Other) (cmd : string)
  : Prop :=
  (forall value, In ("I"%char, value) (labelled_args cmd) ->
                 logicalToNative X_AXIS (position st) (float_ value) = 0)
  /\ (forall value, In ("J"%char, value) (labelled_args cmd) ->
                    logicalToNative Y_AXIS (position st) (float_ value) = 0).

End Vocabulary.

(** ** At-commands (lines 432-462) *)

(** [entry.action], compared with the two constants that the module
    imports; the constants are taken to be different, and [OTHER_ACTION]
    stands for a value equal to neither. *)
Inductive AtAction : Set := ENABLE_EXCLUSION | DISABLE_EXCLUSION | OTHER_ACTION.

(** An entry of [state.atCommandActions]: its method [matches] and its
    attribute [action]. *)
Record AtCommandAction : Type := mkAtCommandAction {
  matches : string -> string -> bool;
  action : AtAction
}.

(** What [handleAtCommand] uses of [self.state]. *)
Class AtCommandApi (Position Other : Type) : Type := {
  atCommandActions_get :
    ExcludeRegionState Position Other -> string -> option (list AtCommandAction);
  enableExclusion :
    string -> ExcludeRegionState Position Other -> ExcludeRegionState Position Other;
  disableExclusion :
    string -> ExcludeRegionState Position Other ->
    list string * ExcludeRegionState Position Other
}.

Section AtCommands.

Context {Position Other : Type}.
Context {at_api : AtCommandApi Position Other}.

(** The loop of lines 447-462 over the entries found for the command.  The
    result is the list of the commands given to [commInstance.sendCommand],
    in the order of the calls, and the state that is left. *)
Fixpoint at_entries (entries : list AtCommandAction) (cmd parameters : string)
  (st : ExcludeRegionState Position Other)
  : list string * ExcludeRegionState Position Other :=
  match entries with
  | [] => ([], st)
  | entry :: rest =>
      if matches entry cmd parameters then
        match action entry with
        | ENABLE_EXCLUSION =>
            at_entries rest cmd parameters
              (enableExclusion (cmd ++ " " ++ parameters)%string st)
        | DISABLE_EXCLUSION =>
            let (commands, st1) :=
              disableExclusion (cmd ++ " " ++ parameters)%string st in
            let (sent, st2) := at_entries rest cmd parameters st1 in
            (commands ++ sent, st2)
        | OTHER_ACTION => at_entries rest cmd parameters st
        end
      else at_entries rest cmd parameters st
  end.

Definition handleAtCommand (cmd parameters : string)
  (st : ExcludeRegionState Position Other)
  : list string * ExcludeRegionState Position Other :=
  match atCommandActions_get st cmd with
  | Some entries => at_entries entries cmd parameters st
  | None => ([], st)
  end.

End AtCommands.

(** ** Vocabulary of the further statements *)

(** The characters of a string that are not white space. *)
Fixpoint strip_spaces (s : string) : string :=
  match s with
  | EmptyString => EmptyString
  | String c s' => if is_space c then strip_spaces s' else String c (strip_spaces s')
  end.

(** The pieces of a split, put end to end. *)
Fixpoint join (pieces : list string) : string :=
  match pieces with
  | [] => EmptyString
  | p :: ps => (p ++ join ps)%string
  end.

(** The value of the last argument with the given label, [found] when there
    is none. *)
Fixpoint last_value_from (found : option R) (label : ascii)
  (args : list (ascii * string)) : option R :=
  match args with
  | [] => found
  | (l, value) :: rest =>
      last_value_from (if label_is l label then Some (float_ value) else found)
        label rest
  end.

Definition last_value (label : ascii) (args : list (ascii * string)) : option R :=
  last_value_from None label args.

(** The last argument with the given label, read by [read]; [found] when
    there is none. *)
Fixpoint last_arg_from (T : Type) (read : string -> T) (found : T) (label : ascii)
  (args : list (ascii * string)) : T :=
  match args with
  | [] => found
  | (l, value) :: rest =>
      last_arg_from read (if label_is l label then read value else found) label rest
  end.

Section Streams.

Context {Position Other : Type}.
Context {axes : AxisPosition Position}.
Context {api : ExcludeRegionStateApi Position Other}.

(** The state after [handleGcode] has been called on each command of a
    list, in turn. *)
Fixpoint after_commands (calls : list (string * string * option string))
  (st : ExcludeRegionState Position Other) : ExcludeRegionState Position Other :=
  match calls with
  | [] => st
  | (cmd, gcode, subcode) :: rest =>
      after_commands rest (snd (handleGcode cmd gcode subcode st))
  end.

End Streams.

(** Some piece of the command begins with the letter, in either case. *)
Definition names_axis (letter : ascii) (cmd : string) : bool :=
  existsb (fun piece => startswith (upper piece) letter) (REGEX_SPLIT_split cmd).

(** The operation codes that have a handler of their own. *)
Definition handled_codes : list string :=
  ["G0"; "G1"; "G2"; "G3"; "G10"; "G11"; "G20"; "G21"; "G28"; "G90"; "G91";
   "G92"; "M206"].

(** No argument of the command has one of the labels. *)
Definition no_argument_labelled (labels : list ascii) (cmd : string) : Prop :=
  forall label value, In (label, value) (labelled_args cmd) -> ~ In label labels.

(** A string made of digits. *)
Fixpoint all_digits (s : string) : bool :=
  match s with
  | EmptyString => true
  | String c s' => is_digit c && all_digits s'
  end.

(** A text of the form [[-+]?[0-9]*\.?[0-9]+]: an optional sign, digits, and
    either nothing more (then with one digit at least) or a point and one
    digit at least. *)
Definition float_text (value : string) : Prop :=
  exists sign whole fraction,
    (sign = EmptyString \/ sign = "-" \/ sign = "+")
    /\ all_digits whole = true /\ all_digits fraction = true
    /\ ((value = (sign ++ whole)%string /\ whole <> EmptyString)
        \/ (value = (sign ++ whole ++ "." ++ fraction)%string
            /\ fraction <> EmptyString)).

(** A printer whose at-command ["@exclude"] has three entries: one that
    re-enables exclusion on the parameter [on], one that disables it on
    [off] and one that never matches. *)
Module BenchAt.

Definition on_entry : AtCommandAction :=
  mkAtCommandAction (fun _ parameters => String.eqb parameters "on") ENABLE_EXCLUSION.

Definition off_entry : AtCommandAction :=
  mkAtCommandAction (fun _ parameters => String.eqb parameters "off") DISABLE_EXCLUSION.

Definition idle_entry : AtCommandAction :=
  mkAtCommandAction (fun _ _ => false) DISABLE_EXCLUSION.

#[global] Instance at_api : AtCommandApi Bench.Position Bench.Other := {
  atCommandActions_get := fun _ cmd =>
    if String.eqb cmd "@exclude" then Some [on_entry; idle_entry; off_entry] else None;
  enableExclusion := fun _ st => st;
  disableExclusion := fun _ st => (["G1 E1 F2400"; "G90"], st)
}.

End BenchAt.

(** Case analysis on the 256 characters. *)
Ltac each_ascii c :=
  destruct c as [[] [] [] [] [] [] [] []].

(** * Properties *)

(** ** Comparisons and the [math] functions *)

Lemma Rltb_true (a b : R) : a < b -> Rltb a b = true.
Proof. intros H. unfold Rltb. destruct (Rlt_dec a b); [reflexivity | contradiction]. Qed.

Lemma Rltb_false (a b : R) : b <= a -> Rltb a b = false.
Proof. intros H. unfold Rltb. destruct (Rlt_dec a b); [lra | reflexivity]. Qed.

Lemma Reqb_true (a b : R) : a = b -> Reqb a b = true.
Proof. intros H. unfold Reqb. destruct (Req_dec_T a b); [reflexivity | contradiction]. Qed.

Lemma Reqb_false (a b : R) : a <> b -> Reqb a b = false.
Proof. intros H. unfold Reqb. destruct (Req_dec_T a b); [contradiction | reflexivity]. Qed.

Lemma Reqb_eq (a b : R) : Reqb a b = true <-> a = b.
Proof.
  unfold Reqb. destruct (Req_dec_T a b); split; intros H;
    try reflexivity; try assumption; try discriminate; contradiction.
Qed.

Lemma truthy_false (a : R) : truthy a = false <-> a = 0.
Proof.
  unfold truthy. rewrite negb_false_iff. apply Reqb_eq.
Qed.

Lemma py_div_nonzero (a b : R) : b <> 0 -> py_div a b = Return (a / b).
Proof. intros H. unfold py_div. rewrite (Reqb_false H). reflexivity. Qed.

Lemma py_div_zero (a : R) : py_div a 0 = Raise ZeroDivisionError.
Proof. unfold py_div. rewrite (Reqb_true (eq_refl 0)). reflexivity. Qed.

Lemma py_div_raises (a b : R) e : py_div a b = Raise e -> b = 0.
Proof.
  unfold py_div. destruct (Reqb b 0) eqn:E; [| discriminate].
  intros _. now apply Reqb_eq.
Qed.

(** [ceil a] is the integer [n] with [n - 1 < a <= n]. *)
Lemma ceil_spec (a : R) (n : Z) : IZR n - 1 < a <= IZR n -> ceil a = n.
Proof.
  intros [Hlo Hhi]. unfold ceil.
  assert (H : (- n)%Z = Int_part (- a)).
  { apply Int_part_spec. rewrite opp_IZR. lra. }
  rewrite <- H. lia.
Qed.

Lemma ceil_bounds (a : R) : IZR (ceil a) - 1 < a <= IZR (ceil a).
Proof.
  unfold ceil. rewrite opp_IZR.
  destruct (base_Int_part (- a)) as [H1 H2]. lra.
Qed.

Lemma ceil_le_0 (a : R) : a <= 0 -> (ceil a <= 0)%Z.
Proof.
  intros H. destruct (ceil_bounds a) as [Hlo _].
  assert (Hlt : IZR (ceil a) < 1) by lra.
  apply lt_IZR in Hlt. lia.
Qed.

Lemma ceil_gt_1 (a : R) : 1 < a -> (2 <= ceil a)%Z.
Proof.
  intros H. destruct (ceil_bounds a) as [_ Hhi].
  assert (Hlt : 1 < IZR (ceil a)) by lra.
  apply lt_IZR in Hlt. lia.
Qed.

Lemma hypot_pos (a b : R) : a <> 0 \/ b <> 0 -> 0 < hypot a b.
Proof.
  intros H. unfold hypot. apply sqrt_lt_R0.
  destruct H as [H | H]; nra.
Qed.

Lemma hypot_0_l (b : R) : hypot 0 b = Rabs b.
Proof.
  unfold hypot. replace (0 * 0 + b * b) with (Rsqr b) by (unfold Rsqr; ring).
  apply sqrt_Rsqr_abs.
Qed.

Lemma hypot_0_r (a : R) : hypot a 0 = Rabs a.
Proof.
  unfold hypot. replace (a * a + 0 * 0) with (Rsqr a) by (unfold Rsqr; ring).
  apply sqrt_Rsqr_abs.
Qed.

Lemma atan2_0_pos (x : R) : 0 < x -> atan2 0 x = 0.
Proof.
  intros H. unfold atan2. rewrite (Rltb_true H).
  replace (0 / x) with 0 by (field; lra). apply atan_0.
Qed.

Lemma atan2_0_0 : atan2 0 0 = 0.
Proof.
  unfold atan2. rewrite !Rltb_false by lra. reflexivity.
Qed.

Lemma atan2_pos_0 (y : R) : 0 < y -> atan2 y 0 = PI / 2.
Proof.
  intros H. unfold atan2.
  rewrite (@Rltb_false 0 0) by lra. rewrite (Rltb_true H). reflexivity.
Qed.

Lemma TWO_PI_pos : 0 < TWO_PI.
Proof. unfold TWO_PI. pose proof PI_RGT_0. lra. Qed.

(** ** The arc planner *)

Lemma arcPoints_length steps angle incr cx cy radius :
  length (arcPoints steps angle incr cx cy radius) = (2 * steps)%nat.
Proof.
  revert angle. induction steps as [| k IH]; intros angle; simpl.
  - reflexivity.
  - rewrite IH. lia.
Qed.

(** The planner fails exactly when the segment count is 1: the increment is
    the travel divided by [numSegments - 1]. *)
Lemma planArcFrom_one_segment x y endX endY i j clockwise :
  arcNumSegments (arcAngularTravel x y endX endY i j clockwise) (hypot i j) = 1%Z ->
  planArcFrom x y endX endY i j clockwise = Raise ZeroDivisionError.
Proof.
  intros H. unfold planArcFrom. rewrite H. simpl (1 - 1)%Z.
  rewrite py_div_zero. reflexivity.
Qed.

Lemma planArcFrom_raises x y endX endY i j clockwise e :
  planArcFrom x y endX endY i j clockwise = Raise e ->
  e = ZeroDivisionError /\
  arcNumSegments (arcAngularTravel x y endX endY i j clockwise) (hypot i j) = 1%Z.
Proof.
  unfold planArcFrom.
  set (n := arcNumSegments _ _).
  destruct (py_div _ (IZR (n - 1))) as [incr | e'] eqn:E; simpl; [discriminate |].
  intros H. injection H as <-.
  pose proof (py_div_raises _ _ E) as H0.
  apply eq_IZR in H0. split; [| lia].
  unfold py_div in E. destruct (Reqb _ 0); congruence.
Qed.

(** When the planner returns, its list is made of pairs and ends at the
    target. *)
Lemma planArcFrom_returns x y endX endY i j clockwise rval :
  planArcFrom x y endX endY i j clockwise = Return rval ->
  Nat.even (length rval) = true /\
  exists points, rval = points ++ [endX; endY].
Proof.
  unfold planArcFrom.
  destruct (py_div _ _) as [incr | e]; simpl; [| discriminate].
  intros H. injection H as <-. split.
  - rewrite length_app, arcPoints_length.
    change (length [endX; endY]) with 2%nat.
    rewrite Nat.even_add, Nat.even_mul. reflexivity.
  - eexists. reflexivity.
Qed.

(** A segment count other than 1 is enough for the planner to return. *)
Lemma planArcFrom_total x y endX endY i j clockwise :
  arcNumSegments (arcAngularTravel x y endX endY i j clockwise) (hypot i j) <> 1%Z ->
  exists rval, planArcFrom x y endX endY i j clockwise = Return rval.
Proof.
  intros H.
  destruct (planArcFrom x y endX endY i j clockwise) as [rval | e] eqn:E.
  - now exists rval.
  - apply planArcFrom_raises in E. tauto.
Qed.

(** A quarter turn of radius 1/2, counter-clockwise from the origin:
    the sweep is [pi / 2] and the arc is [pi / 4] long. *)
Lemma quarter_turn_sweep :
  arcAngularTravel 0 0 (1 / 2) (- (1 / 2)) (1 / 2) 0 false = PI / 2.
Proof.
  pose proof PI_RGT_0 as Hpi.
  assert (Hs : arcSweep 0 0 (1 / 2) (- (1 / 2)) (1 / 2) 0 false = PI / 2).
  { unfold arcSweep.
    replace (- (1 / 2) * (- (1 / 2) - (0 + 0)) + 0 * (1 / 2 - (0 + 1 / 2)))
      with (1 / 4) by lra.
    replace (- (1 / 2) * (1 / 2 - (0 + 1 / 2)) - 0 * (- (1 / 2) - (0 + 0)))
      with 0 by lra.
    rewrite atan2_pos_0 by lra.
    rewrite Rltb_false by lra. reflexivity. }
  unfold arcAngularTravel. rewrite Hs.
  rewrite (@Reqb_false (PI / 2) 0) by lra. reflexivity.
Qed.

Lemma quarter_turn_segments :
  arcNumSegments (arcAngularTravel 0 0 (1 / 2) (- (1 / 2)) (1 / 2) 0 false)
    (hypot (1 / 2) 0) = 1%Z.
Proof.
  pose proof PI_RGT_0 as Hpi. pose proof PI_4 as Hpi4.
  rewrite quarter_turn_sweep, hypot_0_r.
  rewrite Rabs_pos_eq by lra.
  unfold arcNumSegments, MM_PER_ARC_SEGMENT.
  rewrite (@ceil_spec _ 1%Z) by lra. reflexivity.
Qed.

(** C1 -- [planArc] does not return for every arc: with the tool at the
    origin, the counter-clockwise quarter turn to (0.5, -0.5) around
    (0.5, 0) has one segment, and the angular increment divides by
    [numSegments - 1 = 0]. *)
Theorem planArc_quarter_turn_raises :
  planArc Bench.origin (1 / 2) (- (1 / 2)) (1 / 2) 0 false
  = Raise ZeroDivisionError.
Proof.
  unfold planArc. simpl.
  apply planArcFrom_one_segment. exact quarter_turn_segments.
Qed.

(** The spec's own example of a full circle, with a radius of 1/8: the
    circle is [pi / 4] long. *)
Lemma full_circle_sweep (radius : R) : arcSweep 0 0 0 0 0 radius false = 0.
Proof.
  unfold arcSweep.
  replace (- 0 * (0 - (0 + radius)) + radius * (0 - (0 + 0))) with 0 by ring.
  replace (- 0 * (0 - (0 + 0)) - radius * (0 - (0 + radius)))
    with (radius * radius) by ring.
  destruct (Req_dec_T radius 0) as [-> | Hr].
  - replace (0 * 0) with 0 by ring. rewrite atan2_0_0.
    rewrite Rltb_false by lra. reflexivity.
  - rewrite atan2_0_pos by nra. rewrite Rltb_false by lra. reflexivity.
Qed.

Lemma full_circle_travel (radius : R) :
  arcAngularTravel 0 0 0 0 0 radius false = TWO_PI.
Proof.
  unfold arcAngularTravel. rewrite full_circle_sweep.
  rewrite !Reqb_true by reflexivity. reflexivity.
Qed.

Lemma small_circle_segments :
  arcNumSegments (arcAngularTravel 0 0 0 0 0 (1 / 8) false) (hypot 0 (1 / 8)) = 1%Z.
Proof.
  pose proof PI_RGT_0 as Hpi. pose proof PI_4 as Hpi4.
  rewrite full_circle_travel, hypot_0_l.
  rewrite Rabs_pos_eq by lra.
  unfold arcNumSegments, MM_PER_ARC_SEGMENT, TWO_PI.
  rewrite (@ceil_spec _ 1%Z) by lra. reflexivity.
Qed.

(** Clockwise, the sweep is negative. *)
Lemma atan2_lt_TWO_PI (y x : R) : atan2 y x < TWO_PI.
Proof.
  pose proof PI_RGT_0 as Hpi. pose proof (atan_bound (y / x)) as Hb.
  unfold atan2, TWO_PI.
  repeat match goal with
         | |- context [Rltb ?a ?b] => destruct (Rltb a b)
         end; lra.
Qed.

Lemma arcSweep_clockwise_neg x y endX endY i j :
  arcSweep x y endX endY i j true < 0.
Proof.
  unfold arcSweep.
  set (a := atan2 _ _). pose proof (atan2_lt_TWO_PI
    (- i * (endY - (y + j)) + j * (endX - (x + i)))
    (- i * (endX - (x + i)) - j * (endY - (y + j)))) as Ha.
  fold a in Ha. pose proof TWO_PI_pos as Hp.
  unfold Rltb. destruct (Rlt_dec a 0); lra.
Qed.

Lemma hypot_nonneg (a b : R) : 0 <= hypot a b.
Proof. unfold hypot. apply sqrt_pos. Qed.

(** Every clockwise arc is planned as its end point alone: the segment
    count is at most 0 and the loop body never runs. *)
Lemma planArcFrom_clockwise x y endX endY i j :
  planArcFrom x y endX endY i j true = Return [endX; endY].
Proof.
  pose proof (arcSweep_clockwise_neg x y endX endY i j) as Hs.
  pose proof (hypot_nonneg i j) as Hr.
  unfold planArcFrom.
  assert (Ht : arcAngularTravel x y endX endY i j true
               = arcSweep x y endX endY i j true).
  { unfold arcAngularTravel. rewrite (@Reqb_false (arcSweep _ _ _ _ _ _ _) 0) by lra.
    reflexivity. }
  rewrite Ht.
  set (t := arcSweep x y endX endY i j true) in *.
  assert (Hn : (arcNumSegments t (hypot i j) <= 0)%Z).
  { unfold arcNumSegments, MM_PER_ARC_SEGMENT.
    assert (Hc : (ceil (t * hypot i j / 1) <= 0)%Z) by (apply ceil_le_0; nra).
    lia. }
  set (n := arcNumSegments t (hypot i j)) in *.
  rewrite py_div_nonzero.
  - simpl. replace (Z.to_nat (n - 1)) with 0%nat by lia. reflexivity.
  - intros H0. apply eq_IZR in H0. lia.
Qed.

(** C2 -- the divisor [numSegments - 1] can be zero and an arc can have no
    interior step.  With the tool at the origin, the full circle of radius
    1/8 around (0, 1/8) is [pi / 4] long: the segment count is
    [min(1, 2) = 1], the divisor is 0 and [planArc] raises
    [ZeroDivisionError]; and every clockwise arc, whose length is negative,
    has a segment count of at most 0 and is planned as its end point
    alone. *)
Theorem planArc_divisor_zero_and_no_interior_step :
  (arcNumSegments (arcAngularTravel 0 0 0 0 0 (1 / 8) false) (hypot 0 (1 / 8)) - 1 = 0)%Z
  /\ planArc Bench.origin 0 0 0 (1 / 8) false = Raise ZeroDivisionError
  /\ forall endX endY i j,
       planArc Bench.origin endX endY i j true = Return [endX; endY].
Proof.
  split; [| split].
  - rewrite small_circle_segments. reflexivity.
  - unfold planArc. simpl.
    apply planArcFrom_one_segment. exact small_circle_segments.
  - intros. unfold planArc. apply planArcFrom_clockwise.
Qed.



Section FullCircle.

Context {Position Other : Type}.
Context {axes : AxisPosition Position}.


End FullCircle.






(** The same circle with a circumference above 1 gets one interior point
    before its end point. *)
Lemma full_circle_one_interior_point (radius : R) :
  1 < TWO_PI * Rabs radius ->
  exists px py, planArcFrom 0 0 0 0 0 radius false = Return [px; py; 0; 0].
Proof.
  intros H. unfold planArcFrom.
  rewrite full_circle_travel, hypot_0_l.
  assert (Hn : arcNumSegments TWO_PI (Rabs radius) = 2%Z).
  { unfold arcNumSegments, MM_PER_ARC_SEGMENT.
    assert (Hc : (2 <= ceil (TWO_PI * Rabs radius / 1))%Z)
      by (apply ceil_gt_1; lra).
    lia. }
  rewrite Hn. simpl (2 - 1)%Z.
  rewrite py_div_nonzero by lra.
  simpl. do 2 eexists. reflexivity.
Qed.

(** ** The centre-offset solver *)

Section SolverProperties.

Context {Position Other : Type}.
Context {axes : AxisPosition Position}.
Context {api : ExcludeRegionStateApi Position Other}.

Lemma math_sqrt_neg (a : R) : a < 0 -> math_sqrt a = Raise ValueError.
Proof. intros H. unfold math_sqrt. rewrite (Rltb_true H). reflexivity. Qed.

Lemma math_sqrt_nonneg (a : R) : 0 <= a -> math_sqrt a = Return (sqrt a).
Proof. intros H. unfold math_sqrt. rewrite (Rltb_false H). reflexivity. Qed.

(** The guard of line 214 on a proper arc. *)
Lemma proper_arc_guard (p1 q1 x y radius : R) :
  radius <> 0 -> p1 <> x \/ q1 <> y ->
  truthy radius && (negb (Reqb p1 x) || negb (Reqb q1 y)) = true.
Proof.
  intros Hr Hxy. unfold truthy. rewrite (Reqb_false Hr). simpl.
  destruct Hxy as [H | H]; rewrite (Reqb_false H); simpl.
  - reflexivity.
  - apply orb_true_r.
Qed.

(** C5 -- on a proper arc (a radius other than 0, an end point other than
    the current position), [_computeCenterOffsets] raises the domain error
    of [math.sqrt] when the square of the radius is below the square of
    half the chord, and returns a pair of offsets otherwise. *)
Theorem computeCenterOffsets_domain
  (st : ExcludeRegionState Position Other) (x y radius : R) (clockwise : bool) :
  radius <> 0 ->
  current X_AXIS (position st) <> x \/ current Y_AXIS (position st) <> y ->
  let halfChord :=
    hypot (x - current X_AXIS (position st)) (y - current Y_AXIS (position st)) / 2 in
  (radius * radius < halfChord * halfChord ->
   _computeCenterOffsets st x y radius clockwise = Raise ValueError)
  /\ (radius * radius >= halfChord * halfChord ->
      exists i j, _computeCenterOffsets st x y radius clockwise = Return (i, j)).
Proof.
  intros Hr Hxy halfChord.
  unfold _computeCenterOffsets.
  rewrite (proper_arc_guard Hr Hxy).
  fold halfChord.
  split; intros Hh.
  - rewrite math_sqrt_neg by lra. reflexivity.
  - rewrite math_sqrt_nonneg by lra. simpl.
    assert (Hd : hypot (x - current X_AXIS (position st))
                   (y - current Y_AXIS (position st)) <> 0).
    { apply Rgt_not_eq, Rlt_gt, hypot_pos. destruct Hxy; [left | right]; lra. }
    rewrite !py_div_nonzero by exact Hd. simpl.
    do 2 eexists. reflexivity.
Qed.

End SolverProperties.

Lemma computeCenterOffsets_domain_witness :
  _computeCenterOffsets Bench.origin 2 0 (1 / 2) false = Raise ValueError
  /\ exists i j, _computeCenterOffsets Bench.origin 2 0 2 false = Return (i, j).
Proof.
  assert (Hh : hypot (2 - 0) (0 - 0) / 2 = 1).
  { replace (2 - 0) with 2 by lra. replace (0 - 0) with 0 by lra.
    rewrite hypot_0_r, Rabs_pos_eq by lra. lra. }
  assert (Hxy : current X_AXIS (position Bench.origin) <> 2
                \/ current Y_AXIS (position Bench.origin) <> 0)
    by (left; simpl; lra).
  split.
  - assert (Hr : 1 / 2 <> 0) by lra.
    apply (proj1 (computeCenterOffsets_domain Bench.origin false Hr Hxy)).
    simpl. rewrite Hh. lra.
  - assert (Hr : 2 <> 0) by lra.
    apply (proj2 (computeCenterOffsets_domain Bench.origin false Hr Hxy)).
    simpl. rewrite Hh. lra.
Defined.

(** C4 -- the direction flag of a clockwise arc is not a sign: line 215
    computes [1 ^ 1 = 0] for a radius that is not negative and
    [1 ^ -1 = -2] for a negative one.  With the tool at the origin, the
    clockwise arc of radius 2 to (2, 0) gets the offsets (1, 0), the middle
    of the chord, at distance 1 from both ends; counter-clockwise the flag
    is 1 or -1. *)
Theorem direction_flag_clockwise_is_not_a_sign :
  direction_flag true 2 = 0%Z
  /\ direction_flag true (- 2) = (- 2)%Z
  /\ _computeCenterOffsets Bench.origin 2 0 2 true = Return (1, 0)
  /\ direction_flag false 2 = 1%Z
  /\ direction_flag false (- 2) = (- 1)%Z.
Proof.
  assert (Hpos : Rltb 2 0 = false) by (apply Rltb_false; lra).
  assert (Hneg : Rltb (- 2) 0 = true) by (apply Rltb_true; lra).
  unfold direction_flag. rewrite Hpos, Hneg.
  repeat split; try reflexivity.
  unfold _computeCenterOffsets, direction_flag. rewrite Hpos.
  rewrite proper_arc_guard by (simpl; lra).
  simpl current. change (Z.lxor 1 1) with 0%Z.
  assert (Hd : hypot (2 - 0) (0 - 0) = 2).
  { replace (2 - 0) with 2 by lra. replace (0 - 0) with 0 by lra.
    rewrite hypot_0_r, Rabs_pos_eq by lra. reflexivity. }
  rewrite Hd.
  rewrite math_sqrt_nonneg by lra. simpl bind.
  rewrite !py_div_nonzero by lra. simpl bind.
  f_equal. f_equal; lra.
Qed.

(** ** The tokenizer *)

Example split_spaced :
  REGEX_SPLIT_split "G1 X10 Y-5.5 E0.3 F1500"
  = ["G1"; ""; "X10"; ""; "Y-5.5"; ""; "E0.3"; ""; "F1500"].
Proof. reflexivity. Qed.

Example split_joined : REGEX_SPLIT_split "G1X10Y20" = ["G1"; "X10"; "Y20"].
Proof. reflexivity. Qed.

Example split_inner_space : REGEX_SPLIT_split "G1  X 5" = ["G1"; ""; "X 5"].
Proof. reflexivity. Qed.

Example split_leading_space : REGEX_SPLIT_split "  G1  5X" = [" "; ""; "G1  5"; "X"].
Proof. reflexivity. Qed.

Example search_examples :
  map REGEX_FLOAT_ARG_search ["X10"; "y -.5"; "Z1.2.3"; "X5."; "X."; "10"]
  = [Some ("X"%char, "10"); Some ("y"%char, "-.5"); Some ("Z"%char, "1.2");
     Some ("X"%char, "5"); None; None].
Proof. reflexivity. Qed.

Lemma upper_ascii_case_map : case_map upper_ascii.
Proof.
  split; intros c; each_ascii c; try reflexivity; intros H; solve [discriminate H | reflexivity].
Qed.

Lemma lower_ascii_case_map : case_map lower_ascii.
Proof.
  split; intros c; each_ascii c; try reflexivity; intros H; solve [discriminate H | reflexivity].
Qed.

Lemma alpha_not_digit c : is_alpha c = true -> is_digit c = false.
Proof. each_ascii c; intros H; solve [discriminate H | reflexivity]. Qed.

Lemma alpha_not_sign c : is_alpha c = true -> is_sign c = false.
Proof. each_ascii c; intros H; solve [discriminate H | reflexivity]. Qed.

Lemma alpha_not_point c : is_alpha c = true -> is_point c = false.
Proof. each_ascii c; intros H; solve [discriminate H | reflexivity]. Qed.

Lemma alpha_not_space c : is_alpha c = true -> is_space c = false.
Proof. each_ascii c; intros H; solve [discriminate H | reflexivity]. Qed.

Section CaseInsensitive.

Variable f : ascii -> ascii.
Hypothesis Hf : case_map f.

(** A test that no letter passes does not see the case map. *)
Lemma case_map_test (p : ascii -> bool) :
  (forall c, is_alpha c = true -> p c = false) ->
  forall c, p (f c) = p c.
Proof.
  intros Hp c. destruct (is_alpha c) eqn:E.
  - rewrite (Hp c E). apply Hp. now rewrite (cm_alpha Hf).
  - now rewrite (cm_other Hf c E).
Qed.

Lemma case_map_passes (p : ascii -> bool) :
  (forall c, is_alpha c = true -> p c = false) ->
  forall c, p c = true -> f c = c.
Proof.
  intros Hp c H. apply (cm_other Hf).
  destruct (is_alpha c) eqn:E; [| reflexivity].
  rewrite (Hp c E) in H. discriminate H.
Qed.

Lemma spaces_then_letter_case s :
  spaces_then_letter (map_chars f s) = spaces_then_letter s.
Proof.
  induction s as [| c s IH]; simpl; [reflexivity |].
  rewrite (cm_space Hf), (cm_alpha Hf), IH. reflexivity.
Qed.

Lemma cons_char_case c pieces :
  cons_char (f c) (map (map_chars f) pieces) = map (map_chars f) (cons_char c pieces).
Proof. destruct pieces; reflexivity. Qed.

Lemma split_scan_case at_start in_sep s :
  split_scan at_start in_sep (map_chars f s)
  = map (map_chars f) (split_scan at_start in_sep s).
Proof.
  revert at_start in_sep.
  induction s as [| c s IH]; intros at_start in_sep; simpl; [reflexivity |].
  rewrite (cm_space Hf), (cm_alpha Hf), spaces_then_letter_case, !IH.
  destruct (is_space c), in_sep, (negb at_start && spaces_then_letter s),
    (is_alpha c && negb at_start);
    simpl; rewrite ?cons_char_case; reflexivity.
Qed.

Lemma REGEX_SPLIT_split_case cmd :
  REGEX_SPLIT_split (map_chars f cmd) = map (map_chars f) (REGEX_SPLIT_split cmd).
Proof. apply split_scan_case. Qed.

Lemma skip_spaces_case s :
  skip_spaces (map_chars f s) = map_chars f (skip_spaces s).
Proof.
  induction s as [| c s IH]; simpl; [reflexivity |].
  rewrite (cm_space Hf). destruct (is_space c); [exact IH | reflexivity].
Qed.

Lemma take_digits_case s :
  take_digits (map_chars f s)
  = (fst (take_digits s), map_chars f (snd (take_digits s))).
Proof.
  induction s as [| c s IH]; simpl; [reflexivity |].
  rewrite (case_map_test is_digit alpha_not_digit).
  destruct (is_digit c) eqn:E; [| reflexivity].
  rewrite (case_map_passes is_digit alpha_not_digit c E), IH.
  destruct (take_digits s); reflexivity.
Qed.

Lemma take_sign_case s :
  take_sign (map_chars f s)
  = (fst (take_sign s), map_chars f (snd (take_sign s))).
Proof.
  destruct s as [| c s]; simpl; [reflexivity |].
  rewrite (case_map_test is_sign alpha_not_sign).
  destruct (is_sign c) eqn:E; [| reflexivity].
  rewrite (case_map_passes is_sign alpha_not_sign c E). reflexivity.
Qed.

Lemma match_float_pattern_case s :
  match_float_pattern (map_chars f s) = match_float_pattern s.
Proof.
  unfold match_float_pattern.
  rewrite take_sign_case. destruct (take_sign s) as [sign s1]; simpl.
  rewrite take_digits_case. destruct (take_digits s1) as [d1 s2]; simpl.
  destruct s2 as [| c s3]; simpl; [reflexivity |].
  rewrite (case_map_test is_point alpha_not_point).
  destruct (is_point c); [| reflexivity].
  rewrite take_digits_case. destruct (take_digits s3); reflexivity.
Qed.

(** The match of a token in another case: the same literal, the label in
    the other case. *)
Lemma REGEX_FLOAT_ARG_search_case token :
  REGEX_FLOAT_ARG_search (map_chars f token)
  = match REGEX_FLOAT_ARG_search token with
    | Some (label, value) => Some (f label, value)
    | None => None
    end.
Proof.
  destruct token as [| c rest]; simpl; [reflexivity |].
  rewrite (cm_alpha Hf). destruct (is_alpha c); [| reflexivity].
  rewrite skip_spaces_case, match_float_pattern_case.
  destruct (match_float_pattern (skip_spaces rest)); reflexivity.
Qed.

Lemma G0_arg_case a token : G0_arg a (map_chars f token) = G0_arg a token.
Proof.
  unfold G0_arg. rewrite REGEX_FLOAT_ARG_search_case.
  destruct (REGEX_FLOAT_ARG_search token) as [[label value] |]; [| reflexivity].
  rewrite (cm_upper Hf). reflexivity.
Qed.

Lemma fold_left_G0_arg_case tokens a :
  fold_left G0_arg (map (map_chars f) tokens) a = fold_left G0_arg tokens a.
Proof.
  revert a. induction tokens as [| t ts IH]; intros a; simpl; [reflexivity |].
  rewrite G0_arg_case. apply IH.
Qed.

Lemma G0_args_case cmd : G0_args (map_chars f cmd) = G0_args cmd.
Proof.
  unfold G0_args. rewrite REGEX_SPLIT_split_case.
  destruct (REGEX_SPLIT_split cmd) as [| t ts]; [reflexivity |].
  simpl tl. apply fold_left_G0_arg_case.
Qed.

End CaseInsensitive.

Lemma float_literal_examples :
  float_ "10" = 10 /\ float_ "-5.5" = -5.5 /\ float_ "0.3" = 0.3
  /\ float_ "1500" = 1500.
Proof.
  unfold float_.
  replace (float_literal "10") with (10 # 1)%Q by reflexivity.
  replace (float_literal "-5.5") with (-55 # 10)%Q by reflexivity.
  replace (float_literal "0.3") with (3 # 10)%Q by reflexivity.
  replace (float_literal "1500") with (1500 # 1)%Q by reflexivity.
  unfold Q2R. simpl. repeat split; lra.
Qed.

(** C9 -- the arguments read from ["G1 X10 Y-5.5 E0.3 F1500"] are
    E = 0.3, F = 1500, X = 10 and Y = -5.5 (and no Z), and they are what
    [_handle_G1] hands to the linear-move processor; the token [x10] is
    read as [X10] is; and two commands that differ only in the case of
    their letters give the same arguments. *)
Theorem G0_arguments_and_label_case :
  G0_args "G1 X10 Y-5.5 E0.3 F1500"
  = mkLinearArgs (Some 0.3) (Some 1500) (Some 10) (Some (-5.5)) None
  /\ (forall st : Bench.State,
         _handle_G1 "G1 X10 Y-5.5 E0.3 F1500" "G1" None st
         = returned
             (processLinearMoves "G1 X10 Y-5.5 E0.3 F1500"
                (Some 0.3) (Some 1500) None [Some 10; Some (-5.5)] st))
  /\ (forall a, G0_arg a "x10" = G0_arg a "X10")
  /\ (forall cmd cmd' : string, upper cmd = upper cmd' -> G0_args cmd = G0_args cmd').
Proof.
  destruct float_literal_examples as (H10 & H55 & H03 & H1500).
  assert (Hargs : G0_args "G1 X10 Y-5.5 E0.3 F1500"
                  = mkLinearArgs (Some 0.3) (Some 1500) (Some 10) (Some (-5.5)) None).
  { rewrite <- H10, <- H55, <- H03, <- H1500. reflexivity. }
  split; [exact Hargs |]. split; [| split].
  - intros st. unfold _handle_G1, _handle_G0. rewrite Hargs. reflexivity.
  - intros a. reflexivity.
  - intros cmd cmd' H.
    rewrite <- (G0_args_case upper_ascii_case_map cmd).
    rewrite <- (G0_args_case upper_ascii_case_map cmd').
    fold (upper cmd). fold (upper cmd'). rewrite H. reflexivity.
Qed.

Lemma G0_arguments_and_label_case_witness :
  G0_args "g1 x10 y-5.5 E0.3 f1500" = G0_args "G1 X10 Y-5.5 e0.3 F1500".
Proof.
  apply (proj2 (proj2 (proj2 G0_arguments_and_label_case))).
  reflexivity.
Defined.

Lemma tl_cons_char c pieces :
  pieces <> [] -> tl (cons_char c pieces) = tl pieces.
Proof. destruct pieces; [congruence | reflexivity]. Qed.

Lemma split_scan_nonempty at_start in_sep s : split_scan at_start in_sep s <> [].
Proof.
  revert at_start in_sep.
  induction s as [| c s IH]; intros at_start in_sep; simpl; [discriminate |].
  assert (Hcons : cons_char c (split_scan false false s) <> []).
  { specialize (IH false false). destruct (split_scan false false s);
      [congruence | discriminate]. }
  destruct (is_space c).
  - destruct in_sep; [apply IH |].
    destruct (negb at_start && spaces_then_letter s); [discriminate | exact Hcons].
  - destruct (is_alpha c && negb at_start); [discriminate | exact Hcons].
Qed.

(** The separator that has matched ends at a letter, which the pattern
    finds once more: the scan inside the separator begins with an empty
    piece. *)
Lemma split_scan_in_sep s :
  spaces_then_letter s = true -> hd EmptyString (split_scan false true s) = EmptyString.
Proof.
  induction s as [| c s IH]; simpl; [discriminate |].
  destruct (is_space c); [exact IH |].
  intros ->. reflexivity.
Qed.

(** A G10 whose first argument follows white space: the second piece of
    the split is empty. *)
Lemma split_spaced_G10 w c rest :
  w <> "" -> all_spaces w = true -> is_alpha c = true ->
  exists pieces, tl (REGEX_SPLIT_split ("G10" ++ w ++ String c rest)) = "" :: pieces.
Proof.
  intros Hw Hsp Hc.
  assert (Hstl : forall v, all_spaces v = true ->
                           spaces_then_letter (v ++ String c rest) = true).
  { induction v as [| d v IH]; simpl.
    - intros _. rewrite (alpha_not_space c Hc). exact Hc.
    - intros H. apply andb_true_iff in H as [Hd Hv]. rewrite Hd. now apply IH. }
  destruct w as [| d w]; [congruence |].
  simpl in Hsp. apply andb_true_iff in Hsp as [Hd Hsp].
  unfold REGEX_SPLIT_split. cbn [append split_scan].
  change (is_space "G") with false. change (is_space "1") with false.
  change (is_space "0") with false.
  change (is_alpha "G" && negb true) with false.
  change (is_alpha "1" && negb false) with false.
  change (is_alpha "0" && negb false) with false.
  cbn [append split_scan]. rewrite Hd. cbn [negb andb]. rewrite (Hstl w Hsp).
  pose proof (split_scan_in_sep (w ++ String c rest) (Hstl w Hsp)) as Hhd.
  pose proof (split_scan_nonempty false true (w ++ String c rest)) as Hne.
  destruct (split_scan false true (w ++ String c rest)) as [| p ps]; [congruence |].
  simpl in Hhd. subst p. simpl. now exists ps.
Qed.

(** The pieces after the first are empty or begin with the letter that the
    look-ahead has seen. *)
Lemma split_scan_later_pieces s :
  forall at_start in_sep,
    Forall (fun piece => piece = "" \/ begins_with_letter piece)
      (tl (split_scan at_start in_sep s)).
Proof.
  induction s as [| c s IH]; intros at_start in_sep; simpl; [constructor |].
  assert (Hcons : Forall (fun piece => piece = "" \/ begins_with_letter piece)
                    (tl (cons_char c (split_scan false false s))))
    by (rewrite tl_cons_char by apply split_scan_nonempty; apply IH).
  destruct (is_space c) eqn:Esp.
  - destruct in_sep; [apply IH |].
    destruct (negb at_start && spaces_then_letter s) eqn:E; [| exact Hcons].
    apply andb_true_iff in E as [_ E]. simpl tl.
    pose proof (split_scan_in_sep s E) as Hhd.
    pose proof (split_scan_nonempty false true s) as Hne.
    specialize (IH false true).
    destruct (split_scan false true s) as [| p ps]; [congruence |].
    simpl in Hhd. subst p. constructor; [now left | exact IH].
  - destruct (is_alpha c && negb at_start) eqn:E; [| exact Hcons].
    apply andb_true_iff in E as [E _]. simpl tl.
    pose proof (split_scan_nonempty false false s) as Hne.
    specialize (IH false false).
    destruct (split_scan false false s) as [| p ps]; [congruence |].
    simpl. constructor; [| exact IH].
    right. exists c, p. split; [reflexivity | exact E].
Qed.

Lemma no_letter_first_only s : no_letter s = true -> letter_first_only s = true.
Proof.
  destruct s as [| c s]; simpl; [reflexivity |].
  intros H. now apply andb_true_iff in H.
Qed.

(** No piece has a letter after its first character: the string is cut
    before every letter but the one at offset 0. *)
Lemma split_scan_letter_first s :
  forall at_start in_sep,
    Forall (fun piece => letter_first_only piece = true)
      (split_scan at_start in_sep s)
    /\ (at_start = false ->
        no_letter (hd EmptyString (split_scan at_start in_sep s)) = true).
Proof.
  induction s as [| c s IH]; intros at_start in_sep; simpl.
  - split; [repeat constructor | reflexivity].
  - destruct (IH false false) as [Hall Hhd]. specialize (Hhd eq_refl).
    pose proof (split_scan_nonempty false false s) as Hne.
    destruct (is_space c) eqn:Esp.
    + destruct in_sep; [| destruct (negb at_start && spaces_then_letter s)].
      * destruct (IH false true) as [H1 H2]. split; [exact H1 | intros _; now apply H2].
      * destruct (IH false true) as [H1 H2]. split; [| reflexivity].
        constructor; [reflexivity | exact H1].
      * destruct (split_scan false false s) as [| p ps]; [congruence |].
        simpl in *. inversion Hall; subst. split.
        -- constructor; [exact Hhd | assumption].
        -- intros _. rewrite Hhd.
           destruct (is_alpha c) eqn:Ea; [| reflexivity].
           rewrite (alpha_not_space c Ea) in Esp. discriminate.
    + destruct (is_alpha c && negb at_start) eqn:E.
      * destruct (split_scan false false s) as [| p ps]; [congruence |].
        simpl in *. inversion Hall; subst. split; [| reflexivity].
        constructor; [reflexivity |]. constructor; [exact Hhd | assumption].
      * destruct (split_scan false false s) as [| p ps]; [congruence |].
        simpl in *. inversion Hall; subst. split.
        -- constructor; [exact Hhd | assumption].
        -- intros ->. rewrite Hhd.
           destruct (is_alpha c); [discriminate E | reflexivity].
Qed.

(** ** The handlers *)

Section HandlerProperties.

Context {Position Other : Type}.
Context {axes : AxisPosition Position}.
Context {api : ExcludeRegionStateApi Position Other}.

Implicit Type st : ExcludeRegionState Position Other.

(** *** G10 *)

Lemma G10_tool_offset_spec tokens :
  ~ In "" tokens ->
  G10_tool_offset tokens = Return (existsb begins_with_P_or_L tokens).
Proof.
  induction tokens as [| token rest IH]; simpl; [reflexivity |].
  intros H. destruct token as [| c s]; [exfalso; apply H; now left |].
  simpl. destruct (label_is (upper_ascii c) "P" || label_is (upper_ascii c) "L");
    [reflexivity |].
  apply IH. intros Hin. apply H. now right.
Qed.

(** The three ways out of the loop of lines 303-306. *)
Lemma G10_tool_offset_cases tokens :
  (G10_tool_offset tokens = Raise IndexError /\ In "" tokens)
  \/ (G10_tool_offset tokens = Return true
      /\ existsb begins_with_P_or_L tokens = true)
  \/ (G10_tool_offset tokens = Return false
      /\ existsb begins_with_P_or_L tokens = false).
Proof.
  induction tokens as [| token rest IH]; simpl; [right; right; now split |].
  destruct token as [| c s]; [left; split; [reflexivity | now left] |].
  simpl. destruct (label_is (upper_ascii c) "P" || label_is (upper_ascii c) "L");
    [right; left; now split |].
  destruct IH as [[H1 H2] | [[H1 H2] | [H1 H2]]].
  - left. split; [exact H1 | now right].
  - right; left. now split.
  - right; right. now split.
Qed.

(** C8 -- a G10 whose first argument follows white space is neither
    passed on nor recorded: the split leaves an empty piece before the
    argument, line 304 takes the first character of that piece and
    raises [IndexError], with a P or L argument as with any other.  Only
    when no piece is empty, the arguments written with no white space
    before them or absent, does the handler do what its docstring says:
    [None] on an argument that begins with P or L (in either case), and
    else the value of [recordRetraction] for a firmware-retract
    [RetractionState] that carries the command, or what
    [ignoreGcodeCommand] returns when the recorder returned [None]. *)
Theorem handle_G10_spaced_argument_raises cmd gcode subcode st :
  let arguments := tl (REGEX_SPLIT_split cmd) in
  let recorded := recordRetraction (mkRetractionState true cmd) PyNone st in
  (forall w c rest,
      cmd = ("G10" ++ w ++ String c rest)%string ->
      w <> "" -> all_spaces w = true -> is_alpha c = true ->
      _handle_G10 cmd gcode subcode st = (Raise IndexError, st))
  /\ (~ In "" arguments ->
      (existsb begins_with_P_or_L arguments = true ->
       _handle_G10 cmd gcode subcode st = (Return PyNone, st))
      /\ (existsb begins_with_P_or_L arguments = false ->
          (fst recorded = PyNone ->
           _handle_G10 cmd gcode subcode st
           = returned (ignoreGcodeCommand (snd recorded)))
          /\ (fst recorded <> PyNone ->
              _handle_G10 cmd gcode subcode st
              = (Return (fst recorded), snd recorded)))).
Proof.
  intros arguments recorded. split.
  - intros w c rest -> Hw Hsp Hc. unfold _handle_G10.
    destruct (@split_spaced_G10 w c rest Hw Hsp Hc) as [pieces ->]. reflexivity.
  - intros Hne. unfold _handle_G10. fold arguments.
    rewrite (G10_tool_offset_spec _ Hne). fold recorded.
    split; intros ->; [reflexivity |].
    unfold suppress_unless_replaced.
    split; intros H.
    + rewrite H. reflexivity.
    + destruct (fst recorded); [contradiction | reflexivity | reflexivity].
Qed.

(** *** G2 and G3 *)

Lemma G2_arg_no_arc pos a token :
  (forall label value,
      In (label, value) (labelled_arg token) ->
      label <> "R"%char
      /\ (label = "I"%char -> logicalToNative X_AXIS pos (float_ value) = 0)
      /\ (label = "J"%char -> logicalToNative Y_AXIS pos (float_ value) = 0)) ->
  arc_radius a = None /\ arc_i a = 0 /\ arc_j a = 0 ->
  arc_radius (G2_arg pos a token) = None
  /\ arc_i (G2_arg pos a token) = 0
  /\ arc_j (G2_arg pos a token) = 0.
Proof.
  intros Hargs (Hr & Hi & Hj). unfold G2_arg. unfold labelled_arg in Hargs.
  destruct (REGEX_FLOAT_ARG_search token) as [[label value] |]; [| tauto].
  destruct (Hargs (upper_ascii label) value (or_introl eq_refl)) as (HR & HI & HJ).
  unfold G2_arg_j, G2_arg_i, G2_arg_xyzefr, label_is.
  repeat match goal with
         | |- context [Ascii.eqb ?c ?d] => destruct (Ascii.eqb_spec c d)
         end; simpl; auto; congruence.
Qed.

Lemma fold_G2_arg_no_arc pos tokens a :
  (forall label value,
      In (label, value) (flat_map labelled_arg tokens) ->
      label <> "R"%char
      /\ (label = "I"%char -> logicalToNative X_AXIS pos (float_ value) = 0)
      /\ (label = "J"%char -> logicalToNative Y_AXIS pos (float_ value) = 0)) ->
  arc_radius a = None /\ arc_i a = 0 /\ arc_j a = 0 ->
  arc_radius (fold_left (G2_arg pos) tokens a) = None
  /\ arc_i (fold_left (G2_arg pos) tokens a) = 0
  /\ arc_j (fold_left (G2_arg pos) tokens a) = 0.
Proof.
  revert a. induction tokens as [| token rest IH]; intros a Hargs Ha; simpl.
  - exact Ha.
  - apply IH.
    + intros label value Hin. apply Hargs. simpl. apply in_or_app. now right.
    + apply G2_arg_no_arc; [| exact Ha].
      intros label value Hin. apply Hargs. simpl. apply in_or_app. now left.
Qed.

(** C6 -- a G2 or G3 command with no R argument, whose I and J arguments
    (if any) give an offset of 0, returns [None] and leaves the state as it
    is, whatever its other arguments are and whatever the collaborator
    does: neither [planArc] nor [processLinearMoves] has a part in the
    result. *)
Theorem handle_G2_without_centre cmd gcode subcode st :
  no_radius_argument cmd ->
  zero_centre_offsets st cmd ->
  _handle_G2 cmd gcode subcode st = (Return PyNone, st)
  /\ _handle_G3 cmd gcode subcode st = (Return PyNone, st).
Proof.
  intros HR [HI HJ].
  assert (H : _handle_G2 cmd gcode subcode st = (Return PyNone, st)).
  { unfold _handle_G2, G2_args.
    match goal with
    | |- context [fold_left (G2_arg ?pos) ?tokens ?a] =>
        destruct (@fold_G2_arg_no_arc pos tokens a) as (Hr & Hi & Hj)
    end.
    - intros label value Hin. repeat split.
      + intros ->. exact (HR value Hin).
      + intros ->. exact (HI value Hin).
      + intros ->. exact (HJ value Hin).
    - simpl. auto.
    - rewrite Hr, Hi, Hj. unfold truthy.
      rewrite Reqb_true by reflexivity. reflexivity. }
  split; [exact H | exact H].
Qed.

(** *** The command counter *)

Lemma returned_count (r : GcodeResult * ExcludeRegionState Position Other) :
  numCommands (snd (returned r)) = numCommands (snd r).
Proof. reflexivity. Qed.

Lemma suppress_unless_replaced_count r :
  keeps_numCommands ->
  numCommands (snd (suppress_unless_replaced r)) = numCommands (snd r).
Proof.
  intros (_ & _ & _ & _ & Hignore & _).
  unfold suppress_unless_replaced.
  destruct (fst r); simpl; [apply Hignore | reflexivity | reflexivity].
Qed.

Lemma handle_G0_count cmd gcode subcode st :
  keeps_numCommands ->
  numCommands (snd (_handle_G0 cmd gcode subcode st)) = numCommands st.
Proof. intros (Hlin & _). unfold _handle_G0. simpl. apply Hlin. Qed.

Lemma handle_G2_count cmd gcode subcode st :
  keeps_numCommands ->
  numCommands (snd (_handle_G2 cmd gcode subcode st)) = numCommands st.
Proof.
  intros (Hlin & _). unfold _handle_G2.
  destruct (arc_radius _);
    [destruct (_computeCenterOffsets _ _ _ _ _) as [[i j] | e] |];
    try reflexivity;
    (destruct (truthy _ || truthy _); [| reflexivity];
     destruct (planArc _ _ _ _ _ _); [simpl; apply Hlin | reflexivity]).
Qed.

Lemma handle_G10_count cmd gcode subcode st :
  keeps_numCommands ->
  numCommands (snd (_handle_G10 cmd gcode subcode st)) = numCommands st.
Proof.
  intros H. unfold _handle_G10.
  destruct (G10_tool_offset _) as [[|] | e]; try reflexivity.
  rewrite (suppress_unless_replaced_count _ H).
  destruct H as (_ & _ & Hrec & _). apply Hrec.
Qed.

Lemma handle_G11_count cmd gcode subcode st :
  keeps_numCommands ->
  numCommands (snd (_handle_G11 cmd gcode subcode st)) = numCommands st.
Proof.
  intros H. unfold _handle_G11.
  rewrite (suppress_unless_replaced_count _ H).
  destruct H as (_ & _ & _ & Hrec & _). apply Hrec.
Qed.

(** Whatever method the dispatcher picks keeps the counter. *)
Lemma getattr_handle_count gcode cmd code subcode st :
  keeps_numCommands ->
  numCommands (snd (getattr_handle gcode cmd code subcode st)) = numCommands st.
Proof.
  intros H. pose proof H as (_ & Hext & _ & _ & _ & Hunit & Hmode).
  unfold getattr_handle, handler_table, lookup.
  repeat match goal with
         | |- context [String.eqb ?a ?b] => destruct (String.eqb a b)
         end;
    first [ now apply handle_G0_count
          | now apply handle_G2_count
          | now apply handle_G10_count
          | now apply handle_G11_count
          | apply Hunit
          | apply Hmode
          | reflexivity
          | simpl; apply Hext ].
Qed.

(** C3 -- [handleGcode] counts the command before anything else: the method
    picked for the operation code, or the extended handler when there is
    none, runs on the state whose counter is already one above; and when
    the methods of the collaborator leave the counter alone, the counter
    is one above after the call, whatever the code, whatever is returned
    or raised. *)
Theorem handleGcode_counts_every_command cmd gcode subcode st :
  handleGcode cmd gcode subcode st
  = getattr_handle gcode cmd gcode subcode (count_command st)
  /\ numCommands (count_command st) = (numCommands st + 1)%Z
  /\ (keeps_numCommands ->
      numCommands (snd (handleGcode cmd gcode subcode st)) = (numCommands st + 1)%Z).
Proof.
  split; [reflexivity |]. split; [reflexivity |].
  intros H. unfold handleGcode.
  rewrite (getattr_handle_count gcode cmd gcode subcode (count_command st) H).
  reflexivity.
Qed.

(** *** The handlers that only change the state *)

Lemma getattr_handle_state_only gcode cmd code subcode st :
  In gcode state_only_codes ->
  fst (getattr_handle gcode cmd code subcode st) = Return PyNone.
Proof.
  unfold state_only_codes. simpl.
  intros [<- | [<- | [<- | [<- | [<- | [<- | [<- | []]]]]]]]; reflexivity.
Qed.

(** C10 -- the handlers of G20, G21, G28, G90, G91, G92 and M206 return
    [None] on every command, also when [handleGcode] reaches them; what
    they do is the call of the unit or mode setter, or a change of
    [state.position] that leaves the rest of the state as it is. *)
Theorem state_only_handlers_return_None cmd gcode subcode st :
  (fst (_handle_G20 cmd gcode subcode st) = Return PyNone
   /\ fst (_handle_G21 cmd gcode subcode st) = Return PyNone
   /\ fst (_handle_G28 cmd gcode subcode st) = Return PyNone
   /\ fst (_handle_G90 cmd gcode subcode st) = Return PyNone
   /\ fst (_handle_G91 cmd gcode subcode st) = Return PyNone
   /\ fst (_handle_G92 cmd gcode subcode st) = Return PyNone
   /\ fst (_handle_M206 cmd gcode subcode st) = Return PyNone)
  /\ (In gcode state_only_codes ->
      fst (handleGcode cmd gcode subcode st) = Return PyNone)
  /\ (snd (_handle_G20 cmd gcode subcode st) = setUnitMultiplier INCHES_PER_MM st
      /\ snd (_handle_G21 cmd gcode subcode st) = setUnitMultiplier 1 st
      /\ snd (_handle_G90 cmd gcode subcode st) = setAbsoluteMode true st
      /\ snd (_handle_G91 cmd gcode subcode st) = setAbsoluteMode false st)
  /\ (forall h, In h [_handle_G28; _handle_G92; _handle_M206] ->
                numCommands (snd (h cmd gcode subcode st)) = numCommands st
                /\ other (snd (h cmd gcode subcode st)) = other st).
Proof.
  split; [repeat split |]. split; [| split; [repeat split |]].
  - intros H. unfold handleGcode. now apply getattr_handle_state_only.
  - intros h [<- | [<- | [<- | []]]]; split; reflexivity.
Qed.

End HandlerProperties.

(** ** The statements on the printer with no exclusion logic *)

Lemma handle_G10_spaced_argument_raises_witness :
  _handle_G10 "G10 P1" "G10" None Bench.origin = (Raise IndexError, Bench.origin)
  /\ _handle_G10 "G10 S1" "G10" None Bench.origin = (Raise IndexError, Bench.origin)
  /\ _handle_G10 "G10P1" "G10" None Bench.origin = (Return PyNone, Bench.origin)
  /\ _handle_G10 "G10" "G10" None Bench.origin
     = (Return IGNORE_GCODE_CMD, Bench.origin)
  /\ @_handle_G10 _ _ Bench.api_replacing "G10S1" "G10" None Bench.origin
     = (Return (Commands ["G1 E-1 F2400"]), Bench.origin).
Proof.
  split; [| split; [| split; [| split]]].
  - apply (proj1 (handle_G10_spaced_argument_raises
                    (api := Bench.api) "G10 P1" "G10" None Bench.origin) " " "P"%char "1");
      [reflexivity | discriminate | reflexivity | reflexivity].
  - apply (proj1 (handle_G10_spaced_argument_raises
                    (api := Bench.api) "G10 S1" "G10" None Bench.origin) " " "S"%char "1");
      [reflexivity | discriminate | reflexivity | reflexivity].
  - assert (Hne : ~ In "" (tl (REGEX_SPLIT_split "G10P1")))
      by (simpl; intros [H | []]; discriminate H).
    apply (proj1 (proj2 (handle_G10_spaced_argument_raises
                           (api := Bench.api) "G10P1" "G10" None Bench.origin) Hne)).
    reflexivity.
  - assert (Hne : ~ In "" (tl (REGEX_SPLIT_split "G10"))) by (simpl; tauto).
    apply (proj1 (proj2 (proj2 (handle_G10_spaced_argument_raises
                                  (api := Bench.api) "G10" "G10" None Bench.origin)
                           Hne) eq_refl)).
    reflexivity.
  - assert (Hne : ~ In "" (tl (REGEX_SPLIT_split "G10S1")))
      by (simpl; intros [H | []]; discriminate H).
    apply (proj2 (proj2 (proj2 (handle_G10_spaced_argument_raises
                                  (api := Bench.api_replacing)
                                  "G10S1" "G10" None Bench.origin)
                           Hne) eq_refl)).
    simpl. discriminate.
Defined.

Lemma handle_G2_without_centre_witness :
  _handle_G2 "G2 X10 Y5 Z1 E2 F100 I0 J0" "G2" None Bench.origin
  = (Return PyNone, Bench.origin)
  /\ _handle_G3 "G2 X10 Y5 Z1 E2 F100 I0 J0" "G2" None Bench.origin
     = (Return PyNone, Bench.origin).
Proof.
  assert (Hargs : labelled_args "G2 X10 Y5 Z1 E2 F100 I0 J0"
                  = [("X"%char, "10"); ("Y"%char, "5"); ("Z"%char, "1");
                     ("E"%char, "2"); ("F"%char, "100");
                     ("I"%char, "0"); ("J"%char, "0")]) by reflexivity.
  assert (H0 : float_ "0" = 0).
  { unfold float_. replace (float_literal "0") with (0 # 1)%Q by reflexivity.
    unfold Q2R. simpl. lra. }
  apply (handle_G2_without_centre (api := Bench.api)).
  - intros value. rewrite Hargs. simpl.
    intros [H | [H | [H | [H | [H | [H | [H | []]]]]]]]; discriminate H.
  - split; intros value; rewrite Hargs; simpl;
      intros [H | [H | [H | [H | [H | [H | [H | []]]]]]]];
      try discriminate H; injection H as <-; exact H0.
Defined.

Lemma bench_keeps_numCommands : keeps_numCommands (api := Bench.api).
Proof. unfold keeps_numCommands. repeat split. Qed.

Lemma handleGcode_counts_every_command_witness :
  numCommands (snd (handleGcode "G1 X10 Y5" "G1" None Bench.origin)) = 1%Z
  /\ numCommands (snd (handleGcode "M117 hello" "M117" None Bench.origin)) = 1%Z.
Proof.
  split.
  - apply (proj2 (proj2 (handleGcode_counts_every_command
                           "G1 X10 Y5" "G1" None Bench.origin))).
    exact bench_keeps_numCommands.
  - apply (proj2 (proj2 (handleGcode_counts_every_command
                           "M117 hello" "M117" None Bench.origin))).
    exact bench_keeps_numCommands.
Defined.

Lemma state_only_handlers_return_None_witness :
  fst (handleGcode "G28 X" "G28" None Bench.origin) = Return PyNone.
Proof.
  apply (proj1 (proj2 (state_only_handlers_return_None
                         "G28 X" "G28" None Bench.origin))).
  simpl. tauto.
Defined.

(** * Further properties *)

(** ** The centre-offset solver *)

Section SolverFurther.

Context {Position Other : Type}.
Context {axes : AxisPosition Position}.

(** The body of the solver on a proper arc. *)
Lemma computeCenterOffsets_proper (st : ExcludeRegionState Position Other)
  (x y radius : R) (clockwise : bool) :
  radius <> 0 ->
  current X_AXIS (position st) <> x \/ current Y_AXIS (position st) <> y ->
  let p1 := current X_AXIS (position st) in
  let q1 := current Y_AXIS (position st) in
  let dist := hypot (x - p1) (y - q1) in
  let halfDist := dist / 2 in
  dist <> 0
  /\ _computeCenterOffsets st x y radius clockwise
     = (h <- math_sqrt (radius * radius - halfDist * halfDist) ;;
        Return ((p1 + x) / 2 + IZR (direction_flag clockwise radius) * h * (- (y - q1) / dist) - p1,
                (q1 + y) / 2 + IZR (direction_flag clockwise radius) * h * (- (x - p1) / dist) - q1)).
Proof.
  intros Hr Hxy p1 q1 dist halfDist.
  assert (Hd : dist <> 0).
  { unfold dist, p1, q1.
    apply Rgt_not_eq, Rlt_gt, hypot_pos. destruct Hxy; [left | right]; lra. }
  split; [exact Hd |].
  unfold _computeCenterOffsets. rewrite (proper_arc_guard Hr Hxy).
  fold p1 q1 dist halfDist.
  destruct (math_sqrt _) as [h | e]; simpl; [| reflexivity].
  rewrite !py_div_nonzero by exact Hd. reflexivity.
Qed.

Lemma computeCenterOffsets_domain_aux (st : ExcludeRegionState Position Other)
  (x y radius : R) (clockwise : bool) :
  radius <> 0 ->
  current X_AXIS (position st) <> x \/ current Y_AXIS (position st) <> y ->
  let halfChord :=
    hypot (x - current X_AXIS (position st)) (y - current Y_AXIS (position st)) / 2 in
  (radius * radius < halfChord * halfChord ->
   _computeCenterOffsets st x y radius clockwise = Raise ValueError)
  /\ (radius * radius >= halfChord * halfChord ->
      exists i j, _computeCenterOffsets st x y radius clockwise = Return (i, j)).
Proof.
  intros Hr Hxy halfChord.
  destruct (computeCenterOffsets_proper st clockwise Hr Hxy) as [_ ->].
  fold halfChord. split; intros H.
  - rewrite math_sqrt_neg by lra. reflexivity.
  - rewrite math_sqrt_nonneg by lra. simpl. do 2 eexists. reflexivity.
Qed.

End SolverFurther.

(** ** The arc planner *)

Lemma arcNumSegments_one (angularTravel radius : R) :
  arcNumSegments angularTravel radius = 1%Z <-> 0 < angularTravel * radius <= 1.
Proof.
  unfold arcNumSegments, MM_PER_ARC_SEGMENT.
  replace (angularTravel * radius / 1) with (angularTravel * radius) by field.
  pose proof (ceil_bounds (angularTravel * radius)) as Hb.
  split.
  - intros H.
    assert (Hc : ceil (angularTravel * radius) = 1%Z) by lia.
    rewrite Hc in Hb. lra.
  - intros H. rewrite (@ceil_spec _ 1%Z) by lra. reflexivity.
Qed.

Section ArcProperties.

Context {Position Other : Type}.
Context {axes : AxisPosition Position}.
Context {api : ExcludeRegionStateApi Position Other}.

Implicit Type st : ExcludeRegionState Position Other.

(** X1 -- [planArc] raises exactly for the arcs whose length, the angular
    travel times the radius, is above 0 and at most 1, and what it raises
    then is [ZeroDivisionError]. *)
Theorem planArc_raises_iff st endX endY i j clockwise :
  let x := current X_AXIS (position st) in
  let y := current Y_AXIS (position st) in
  let arcLength := arcAngularTravel x y endX endY i j clockwise * hypot i j in
  ((exists e, planArc st endX endY i j clockwise = Raise e)
   <-> 0 < arcLength <= 1)
  /\ (forall e, planArc st endX endY i j clockwise = Raise e -> e = ZeroDivisionError).
Proof.
  intros x y arcLength. unfold planArc. fold x y. split; [split |].
  - intros [e He]. apply planArcFrom_raises in He as [_ He].
    now apply arcNumSegments_one.
  - intros H. exists ZeroDivisionError.
    apply planArcFrom_one_segment. now apply arcNumSegments_one.
  - intros e He. now apply planArcFrom_raises in He.
Qed.

(** X2 -- outside of that range [planArc] returns: the target alone when
    the length of the arc is 0 or below, and one point before the target
    when it is above 1, whatever the length; the point lies on the circle
    of the arc, at the distance [hypot(i, j)] from its centre. *)
Theorem planArc_returns_at_most_one_point st endX endY i j clockwise :
  let x := current X_AXIS (position st) in
  let y := current Y_AXIS (position st) in
  let arcLength := arcAngularTravel x y endX endY i j clockwise * hypot i j in
  (arcLength <= 0 -> planArc st endX endY i j clockwise = Return [endX; endY])
  /\ (1 < arcLength ->
      exists px py,
        planArc st endX endY i j clockwise = Return [px; py; endX; endY]
        /\ (px - (x + i)) * (px - (x + i)) + (py - (y + j)) * (py - (y + j))
           = i * i + j * j).
Proof.
  intros x y arcLength. unfold planArc, planArcFrom. fold x y.
  set (t := arcAngularTravel x y endX endY i j clockwise) in *.
  split; intros H.
  - assert (Hn : (arcNumSegments t (hypot i j) <= 0)%Z).
    { unfold arcNumSegments, MM_PER_ARC_SEGMENT.
      assert (Hc : (ceil (t * hypot i j / 1) <= 0)%Z)
        by (apply ceil_le_0; unfold arcLength in H; lra).
      lia. }
    set (n := arcNumSegments t (hypot i j)) in *.
    rewrite py_div_nonzero.
    + simpl. replace (Z.to_nat (n - 1)) with 0%nat by lia. reflexivity.
    + intros H0. apply eq_IZR in H0. lia.
  - assert (Hn : arcNumSegments t (hypot i j) = 2%Z).
    { unfold arcNumSegments, MM_PER_ARC_SEGMENT.
      assert (Hc : (2 <= ceil (t * hypot i j / 1))%Z)
        by (apply ceil_gt_1; unfold arcLength in H; lra).
      lia. }
    rewrite Hn. simpl (2 - 1)%Z.
    rewrite py_div_nonzero by lra. simpl.
    do 2 eexists. split; [reflexivity |].
    set (a := atan2 (- i) (- j) + t / 1).
    assert (Hh : hypot i j * hypot i j = i * i + j * j).
    { unfold hypot. apply sqrt_sqrt. nra. }
    pose proof (sin2_cos2 a) as Hsc. unfold Rsqr in Hsc.
    replace (x + i + cos a * hypot i j - (x + i)) with (cos a * hypot i j) by ring.
    replace (y + j + sin a * hypot i j - (y + j)) with (sin a * hypot i j) by ring.
    transitivity ((sin a * sin a + cos a * cos a) * (hypot i j * hypot i j));
      [ring | rewrite Hsc, Hh; ring].
Qed.

(** X3 -- a G2 command with a centre offset (no R argument, I or J not 0)
    is handed to the linear-move processor as the single move to its end
    point: the clockwise travel is negative and the planner adds no point
    of the arc. *)
Theorem handleGcode_G2_is_a_straight_move cmd subcode st :
  let a := G2_args (position st) cmd in
  arc_radius a = None ->
  arc_i a <> 0 \/ arc_j a <> 0 ->
  handleGcode cmd "G2" subcode st
  = returned
      (processLinearMoves cmd (arc_extruderPosition a) (arc_feedRate a)
         (Some (arc_z a)) [Some (arc_x a); Some (arc_y a)] (count_command st)).
Proof.
  intros a Hr Hij.
  change (handleGcode cmd "G2" subcode st)
    with (_handle_G2 cmd "G2" subcode (count_command st)).
  unfold _handle_G2. simpl position. fold a. rewrite Hr.
  assert (Ht : truthy (arc_i a) || truthy (arc_j a) = true).
  { unfold truthy. destruct Hij as [H | H]; rewrite (Reqb_false H); simpl;
      [reflexivity | apply orb_true_r]. }
  rewrite Ht. unfold planArc. simpl String.eqb.
  rewrite planArcFrom_clockwise. reflexivity.
Qed.

(** X4 -- the two errors of an arc leave [handleGcode] as they are, with
    the command counted and nothing else changed: the division by zero of
    the planner, for a counter-clockwise arc given by I and J whose length
    is above 0 and at most 1, and the domain error of the solver, for an
    arc given by a radius that is too short for its chord. *)
Theorem arc_errors_leave_handleGcode cmd subcode st :
  let a := G2_args (position st) cmd in
  let x := current X_AXIS (position st) in
  let y := current Y_AXIS (position st) in
  (arc_radius a = None ->
   arc_i a <> 0 \/ arc_j a <> 0 ->
   0 < arcAngularTravel x y (arc_x a) (arc_y a) (arc_i a) (arc_j a) false
       * hypot (arc_i a) (arc_j a) <= 1 ->
   handleGcode cmd "G3" subcode st = (Raise ZeroDivisionError, count_command st))
  /\ (forall gcode radius,
         gcode = "G2" \/ gcode = "G3" ->
         arc_radius a = Some radius ->
         radius <> 0 ->
         x <> arc_x a \/ y <> arc_y a ->
         radius * radius
         < hypot (arc_x a - x) (arc_y a - y) / 2 * (hypot (arc_x a - x) (arc_y a - y) / 2) ->
         handleGcode cmd gcode subcode st = (Raise ValueError, count_command st)).
Proof.
  intros a x y. split.
  - intros Hr Hij Hlen.
    change (handleGcode cmd "G3" subcode st)
      with (_handle_G2 cmd "G3" subcode (count_command st)).
    unfold _handle_G2. simpl position. fold a. rewrite Hr.
    assert (Ht : truthy (arc_i a) || truthy (arc_j a) = true).
    { unfold truthy. destruct Hij as [H | H]; rewrite (Reqb_false H); simpl;
        [reflexivity | apply orb_true_r]. }
    rewrite Ht. unfold planArc. simpl String.eqb. simpl position. fold x y.
    rewrite planArcFrom_one_segment; [reflexivity |].
    now apply arcNumSegments_one.
  - intros gcode radius Hg Hr Hr0 Hxy Hshort.
    assert (Hh : handleGcode cmd gcode subcode st
                 = _handle_G2 cmd gcode subcode (count_command st))
      by (destruct Hg as [-> | ->]; reflexivity).
    rewrite Hh. unfold _handle_G2. simpl position. fold a. rewrite Hr.
    rewrite (proj1 (computeCenterOffsets_domain_aux (count_command st)
                      (String.eqb gcode "G2") Hr0 Hxy) Hshort).
    reflexivity.
Qed.

End ArcProperties.

(** ** The centre-offset solver, further *)

Section SolverGeometry.

Context {Position Other : Type}.
Context {axes : AxisPosition Position}.

Implicit Type st : ExcludeRegionState Position Other.

(** X5 -- [_computeCenterOffsets] returns (0, 0) for a radius of 0 and for
    an end point that is the current position, in both directions; and the
    only exception it raises is the domain error of [math.sqrt], which
    needs a proper arc whose radius is too short for its chord: the chord
    it divides by is never 0. *)
Theorem computeCenterOffsets_degenerate_and_errors st x y radius clockwise :
  let p1 := current X_AXIS (position st) in
  let q1 := current Y_AXIS (position st) in
  let halfChord := hypot (x - p1) (y - q1) / 2 in
  (radius = 0 \/ (p1 = x /\ q1 = y) ->
   _computeCenterOffsets st x y radius clockwise = Return (0, 0))
  /\ (forall e,
         _computeCenterOffsets st x y radius clockwise = Raise e ->
         e = ValueError /\ radius <> 0 /\ (p1 <> x \/ q1 <> y)
         /\ radius * radius < halfChord * halfChord).
Proof.
  intros p1 q1 halfChord.
  assert (Hdeg : radius = 0 \/ (p1 = x /\ q1 = y) ->
                 _computeCenterOffsets st x y radius clockwise = Return (0, 0)).
  { intros H. unfold _computeCenterOffsets. fold p1 q1.
    destruct H as [-> | [-> ->]].
    - unfold truthy. rewrite Reqb_true by reflexivity. reflexivity.
    - rewrite !Reqb_true by reflexivity. simpl. rewrite andb_false_r. reflexivity. }
  split; [exact Hdeg |].
  intros e He.
  destruct (Req_dec_T radius 0) as [Hr | Hr];
    [rewrite Hdeg in He by (now left); discriminate |].
  destruct (Req_dec_T p1 x) as [Hp | Hp].
  - destruct (Req_dec_T q1 y) as [Hq | Hq];
      [rewrite Hdeg in He by (now right); discriminate |].
    assert (Hxy : p1 <> x \/ q1 <> y) by now right.
    destruct (computeCenterOffsets_proper st clockwise Hr Hxy) as [_ Hbody].
    rewrite Hbody in He. fold p1 q1 halfChord in He.
    unfold math_sqrt in He.
    destruct (Rltb _ 0) eqn:E; simpl in He; [| discriminate].
    unfold Rltb in E. destruct (Rlt_dec _ 0); [| discriminate].
    injection He as <-. repeat split; auto. lra.
  - assert (Hxy : p1 <> x \/ q1 <> y) by now left.
    destruct (computeCenterOffsets_proper st clockwise Hr Hxy) as [_ Hbody].
    rewrite Hbody in He. fold p1 q1 halfChord in He.
    unfold math_sqrt in He.
    destruct (Rltb _ 0) eqn:E; simpl in He; [| discriminate].
    unfold Rltb in E. destruct (Rlt_dec _ 0); [| discriminate].
    injection He as <-. repeat split; auto. lra.
Qed.

Lemma direction_flag_counter_clockwise (radius : R) :
  IZR (direction_flag false radius) * IZR (direction_flag false radius) = 1.
Proof.
  unfold direction_flag. destruct (Rltb radius 0); simpl; lra.
Qed.

(** The offsets for a chord along the Y axis and for one along the X axis:
    with [s * s = 1], the unit vector along the chord. *)
Lemma on_circle_vertical (e h r dy D : R) :
  e * e = 1 -> D <> 0 -> D * D = dy * dy -> h * h = r * r - D / 2 * (D / 2) ->
  let i := e * h * (- dy / D) in
  let j := dy / 2 in
  i * i + j * j = r * r /\ i * i + (j - dy) * (j - dy) = r * r.
Proof.
  intros He HD HDD Hh i j.
  assert (Hu : (dy / D) * (dy / D) = 1).
  { replace (dy / D * (dy / D)) with ((dy * dy) / (D * D)) by (field; exact HD).
    rewrite <- HDD. field. exact HD. }
  assert (Hi : i * i = h * h).
  { unfold i.
    replace (e * h * (- dy / D) * (e * h * (- dy / D)))
      with ((e * e) * (h * h) * (dy / D * (dy / D))) by (field; exact HD).
    rewrite He, Hu. ring. }
  unfold j. split; rewrite Hi, Hh; nra.
Qed.

(** X6 -- for a counter-clockwise arc given by a radius, with a chord that
    is parallel to an axis and not longer than the diameter, the centre
    that [_computeCenterOffsets] gives is at the distance of the radius
    from the current position and from the end point. *)
Theorem computeCenterOffsets_axis_chord_on_circle st x y radius :
  let dx := x - current X_AXIS (position st) in
  let dy := y - current Y_AXIS (position st) in
  let halfChord := hypot dx dy / 2 in
  radius <> 0 ->
  (dx = 0 /\ dy <> 0) \/ (dy = 0 /\ dx <> 0) ->
  radius * radius >= halfChord * halfChord ->
  exists i j,
    _computeCenterOffsets st x y radius false = Return (i, j)
    /\ i * i + j * j = radius * radius
    /\ (i - dx) * (i - dx) + (j - dy) * (j - dy) = radius * radius.
Proof.
  intros dx dy halfChord Hr Hchord Hlong.
  assert (Hxy : current X_AXIS (position st) <> x
                \/ current Y_AXIS (position st) <> y).
  { unfold dx, dy in Hchord. destruct Hchord as [[_ H] | [_ H]]; [right | left]; lra. }
  destruct (computeCenterOffsets_proper st false Hr Hxy) as [HD Hbody].
  rewrite Hbody. clear Hbody.
  fold dx dy in HD |- *. fold halfChord.
  rewrite math_sqrt_nonneg by lra. simpl bind.
  set (h := sqrt (radius * radius - halfChord * halfChord)).
  assert (Hh : h * h = radius * radius - halfChord * halfChord)
    by (apply sqrt_sqrt; lra).
  set (D := hypot dx dy) in *.
  assert (HDD : D * D = dx * dx + dy * dy)
    by (unfold D, hypot; apply sqrt_sqrt; nra).
  pose proof (direction_flag_counter_clockwise radius) as He.
  set (e := IZR (direction_flag false radius)) in *.
  set (p1 := current X_AXIS (position st)) in *.
  set (q1 := current Y_AXIS (position st)) in *.
  do 2 eexists. split; [reflexivity |].
  unfold halfChord in Hh.
  destruct Hchord as [[Hdx Hdy] | [Hdy Hdx]].
  - assert (HDy : D * D = dy * dy) by (rewrite HDD, Hdx; ring).
    destruct (on_circle_vertical He HD HDy Hh) as [H1 H2].
    replace ((p1 + x) / 2 + e * h * (- dy / D) - p1) with (e * h * (- dy / D))
      by (unfold dx in Hdx; field_simplify_eq; [nra | exact HD]).
    replace ((q1 + y) / 2 + e * h * (- dx / D) - q1) with (dy / 2)
      by (rewrite Hdx; unfold dy; field; exact HD).
    rewrite Hdx. split; [exact H1 |].
    replace (e * h * (- dy / D) - 0) with (e * h * (- dy / D)) by ring.
    exact H2.
  - assert (HDx : D * D = dx * dx) by (rewrite HDD, Hdy; ring).
    destruct (on_circle_vertical He HD HDx Hh) as [H1 H2].
    replace ((p1 + x) / 2 + e * h * (- dy / D) - p1) with (dx / 2)
      by (rewrite Hdy; unfold dx; field; exact HD).
    replace ((q1 + y) / 2 + e * h * (- dx / D) - q1) with (e * h * (- dx / D))
      by (unfold dy in Hdy; field_simplify_eq; [nra | exact HD]).
    rewrite Hdy. split; [lra |].
    replace (e * h * (- dx / D) - 0) with (e * h * (- dx / D)) by ring.
    lra.
Qed.

End SolverGeometry.

(** ** The tokenizer, further *)

Lemma join_cons_char c pieces : join (cons_char c pieces) = String c (join pieces).
Proof. destruct pieces; reflexivity. Qed.

Lemma split_scan_strip at_start in_sep s :
  strip_spaces (join (split_scan at_start in_sep s)) = strip_spaces s.
Proof.
  revert at_start in_sep.
  induction s as [| c s IH]; intros at_start in_sep; simpl; [reflexivity |].
  assert (Hcons : strip_spaces (join (cons_char c (split_scan false false s)))
                  = if is_space c then strip_spaces s else String c (strip_spaces s)).
  { rewrite join_cons_char. simpl. now rewrite IH. }
  destruct (is_space c) eqn:E.
  - destruct in_sep; [apply IH |].
    destruct (negb at_start && spaces_then_letter s); [simpl; apply IH | exact Hcons].
  - destruct (is_alpha c && negb at_start); [simpl |]; exact Hcons.
Qed.

(** X7 -- [REGEX_SPLIT.split] always returns a first piece and drops
    nothing but white space; every piece after the first is empty or
    begins with a letter, and no piece has a letter after its first
    character: the command is cut before every letter but the one at
    offset 0. *)
Theorem REGEX_SPLIT_keeps_all_but_spaces cmd :
  REGEX_SPLIT_split cmd <> []
  /\ strip_spaces (join (REGEX_SPLIT_split cmd)) = strip_spaces cmd
  /\ Forall (fun piece => piece = "" \/ begins_with_letter piece)
       (tl (REGEX_SPLIT_split cmd))
  /\ Forall (fun piece => letter_first_only piece = true) (REGEX_SPLIT_split cmd).
Proof.
  split; [apply split_scan_nonempty |].
  split; [apply split_scan_strip |].
  split; [apply split_scan_later_pieces | apply split_scan_letter_first].
Qed.

Lemma take_digits_spec s :
  s = (fst (take_digits s) ++ snd (take_digits s))%string
  /\ all_digits (fst (take_digits s)) = true.
Proof.
  induction s as [| c s [IH1 IH2]]; simpl; [split; reflexivity |].
  destruct (is_digit c) eqn:E; [| split; reflexivity].
  destruct (take_digits s) as [d r]; simpl in *.
  split; [now rewrite <- IH1 | now rewrite E, IH2].
Qed.

Lemma take_sign_spec s :
  s = (fst (take_sign s) ++ snd (take_sign s))%string
  /\ (fst (take_sign s) = "" \/ fst (take_sign s) = "-" \/ fst (take_sign s) = "+").
Proof.
  destruct s as [| c s]; simpl; [split; [reflexivity | now left] |].
  destruct (is_sign c) eqn:E; simpl; [| split; [reflexivity | now left]].
  split; [reflexivity |].
  each_ascii c; try discriminate E; auto.
Qed.

Lemma is_point_eq c : is_point c = true -> c = "."%char.
Proof. each_ascii c; intros H; solve [discriminate H | reflexivity]. Qed.

Lemma nonempty_true s : nonempty s = true -> s <> "".
Proof. destruct s; [discriminate | discriminate]. Qed.

Lemma append_assoc (a b c : string) : ((a ++ b) ++ c = a ++ (b ++ c))%string.
Proof. induction a as [| x a IH]; simpl; [reflexivity | now rewrite IH]. Qed.

Lemma match_float_pattern_spec s value :
  match_float_pattern s = Some value ->
  float_text value /\ exists tail, s = (value ++ tail)%string.
Proof.
  unfold match_float_pattern.
  destruct (take_sign_spec s) as [Hs Hsign].
  destruct (take_sign s) as [sign s1]; simpl in Hs, Hsign.
  destruct (take_digits_spec s1) as [Hd1 Hall1].
  destruct (take_digits s1) as [d1 s2]; simpl in Hd1, Hall1.
  assert (Hwhole : (if nonempty d1 then Some (sign ++ d1)%string else None) = Some value ->
                   float_text value /\ exists tail, s = (value ++ tail)%string).
  { destruct (nonempty d1) eqn:En; [| discriminate].
    intros H. injection H as <-. split.
    - exists sign, d1, "". repeat split; auto.
      left. split; [reflexivity | now apply nonempty_true].
    - exists s2. rewrite append_assoc, <- Hd1. exact Hs. }
  destruct s2 as [| c s3]; [exact Hwhole |].
  destruct (is_point c) eqn:Ep; [| exact Hwhole].
  apply is_point_eq in Ep. subst c.
  destruct (take_digits_spec s3) as [Hd2 Hall2].
  destruct (take_digits s3) as [d2 s4]; simpl in Hd2, Hall2.
  destruct (nonempty d2) eqn:En; [| exact Hwhole].
  intros H. injection H as <-. split.
  - exists sign, d1, d2. repeat split; auto.
    right. split; [reflexivity | now apply nonempty_true].
  - exists s4. rewrite Hs, Hd1, Hd2.
    rewrite !append_assoc. reflexivity.
Qed.

(** X8 -- what [REGEX_FLOAT_ARG] finds in a token is the first character of
    the token, a letter, and, after the white space that follows it, a
    text of the form of the pattern: an optional sign, digits, and a point
    only with a digit after it; so the literal always has a digit and is
    one that [float] reads. *)
Theorem REGEX_FLOAT_ARG_search_sound token label value :
  REGEX_FLOAT_ARG_search token = Some (label, value) ->
  is_alpha label = true
  /\ float_text value
  /\ exists rest tail,
       token = String label rest /\ skip_spaces rest = (value ++ tail)%string.
Proof.
  unfold REGEX_FLOAT_ARG_search.
  destruct token as [| c rest]; [discriminate |].
  destruct (is_alpha c) eqn:E; [| discriminate].
  destruct (match_float_pattern (skip_spaces rest)) as [v |] eqn:Em; [| discriminate].
  intros H. injection H as <- <-.
  destruct (match_float_pattern_spec _ Em) as [Htext [tail Htail]].
  split; [exact E |]. split; [exact Htext |].
  exists rest, tail. split; [reflexivity | exact Htail].
Qed.

Lemma REGEX_FLOAT_ARG_search_sound_witness :
  is_alpha "y" = true
  /\ float_text "-.5"
  /\ exists rest tail, "y  -.5mm" = String "y" rest
                       /\ skip_spaces rest = ("-.5" ++ tail)%string.
Proof.
  apply (@REGEX_FLOAT_ARG_search_sound "y  -.5mm" "y" "-.5"). reflexivity.
Defined.

(** ** G0 and G1, further *)

Lemma G0_arg_last a token :
  mkLinearArgs
    (last_value_from (lin_extruderPosition a) "E" (labelled_arg token))
    (last_value_from (lin_feedRate a) "F" (labelled_arg token))
    (last_value_from (lin_x a) "X" (labelled_arg token))
    (last_value_from (lin_y a) "Y" (labelled_arg token))
    (last_value_from (lin_z a) "Z" (labelled_arg token))
  = G0_arg a token.
Proof.
  unfold G0_arg, labelled_arg.
  destruct (REGEX_FLOAT_ARG_search token) as [[label value] |];
    [| destruct a; reflexivity].
  simpl. set (L := upper_ascii label). clearbody L.
  unfold label_is.
  destruct (Ascii.eqb_spec L "E"); [subst L; reflexivity |].
  destruct (Ascii.eqb_spec L "F"); [subst L; reflexivity |].
  destruct (Ascii.eqb_spec L "X"); [subst L; reflexivity |].
  destruct (Ascii.eqb_spec L "Y"); [subst L; reflexivity |].
  destruct (Ascii.eqb_spec L "Z"); [subst L; reflexivity |].
  destruct a; reflexivity.
Qed.

Lemma last_value_from_app found label args args' :
  last_value_from found label (args ++ args')
  = last_value_from (last_value_from found label args) label args'.
Proof.
  revert found. induction args as [| [l v] args IH]; intros found; simpl;
    [reflexivity | apply IH].
Qed.

Lemma fold_G0_arg_last tokens a :
  fold_left G0_arg tokens a
  = mkLinearArgs
      (last_value_from (lin_extruderPosition a) "E" (flat_map labelled_arg tokens))
      (last_value_from (lin_feedRate a) "F" (flat_map labelled_arg tokens))
      (last_value_from (lin_x a) "X" (flat_map labelled_arg tokens))
      (last_value_from (lin_y a) "Y" (flat_map labelled_arg tokens))
      (last_value_from (lin_z a) "Z" (flat_map labelled_arg tokens)).
Proof.
  revert a. induction tokens as [| token rest IH]; intros a; simpl.
  - destruct a; reflexivity.
  - rewrite IH, !last_value_from_app, <- (G0_arg_last a token). reflexivity.
Qed.

(** X9 -- each of the five values that [_handle_G0] reads is the value of
    the last argument of the command with its label (E, F, X, Y or Z, in
    either case), and [None] when the command has no such argument. *)
Theorem G0_args_last_value cmd :
  G0_args cmd
  = mkLinearArgs
      (last_value "E" (labelled_args cmd)) (last_value "F" (labelled_args cmd))
      (last_value "X" (labelled_args cmd)) (last_value "Y" (labelled_args cmd))
      (last_value "Z" (labelled_args cmd)).
Proof. unfold G0_args. rewrite fold_G0_arg_last. reflexivity. Qed.

(** ** The other handlers, further *)

Lemma fold_left_map_same (A B : Type) (step : A -> B -> A) (g : B -> B) :
  (forall a b, step a (g b) = step a b) ->
  forall l a, fold_left step (map g l) a = fold_left step l a.
Proof.
  intros H l. induction l as [| b l IH]; intros a; simpl; [reflexivity |].
  rewrite H. apply IH.
Qed.

Lemma tl_map (A B : Type) (g : A -> B) (l : list A) : tl (map g l) = map g (tl l).
Proof. destruct l; reflexivity. Qed.

Lemma with_position_same (Position Other : Type)
  (st : ExcludeRegionState Position Other) :
  with_position (fun pos => pos) st = st.
Proof. destruct st; reflexivity. Qed.

Section FurtherHandlerProperties.

Context {Position Other : Type}.
Context {axes : AxisPosition Position}.
Context {api : ExcludeRegionStateApi Position Other}.

Implicit Type st : ExcludeRegionState Position Other.

(** *** G28 *)

Lemma G28_arg_spec h arg :
  G28_arg h arg
  = mkHomeFlags (homeX h || startswith (upper arg) "X")
      (homeY h || startswith (upper arg) "Y")
      (homeZ h || startswith (upper arg) "Z").
Proof.
  unfold G28_arg. destruct (upper arg) as [| d s]; simpl.
  - destruct h as [[] [] []]; reflexivity.
  - destruct (Ascii.eqb_spec d "X"); [subst d; destruct h as [[] [] []]; reflexivity |].
    destruct (Ascii.eqb_spec d "Y"); [subst d; destruct h as [[] [] []]; reflexivity |].
    destruct (Ascii.eqb_spec d "Z"); [subst d; destruct h as [[] [] []]; reflexivity |].
    destruct h as [[] [] []]; reflexivity.
Qed.

Lemma fold_G28_arg_spec pieces h :
  fold_left G28_arg pieces h
  = mkHomeFlags
      (homeX h || existsb (fun piece => startswith (upper piece) "X") pieces)
      (homeY h || existsb (fun piece => startswith (upper piece) "Y") pieces)
      (homeZ h || existsb (fun piece => startswith (upper piece) "Z") pieces).
Proof.
  revert h. induction pieces as [| piece rest IH]; intros h; simpl.
  - destruct h as [[] [] []]; reflexivity.
  - rewrite IH, G28_arg_spec. simpl. rewrite !orb_assoc. reflexivity.
Qed.

(** X10 -- G28 homes the axes among X, Y and Z whose letter begins a piece
    of the command, in either case and whatever follows the letter, and
    all three when no piece begins with one of the letters; it homes X
    first, then Y, then Z. *)
Theorem handle_G28_homes_named_axes cmd gcode subcode st :
  let all := negb (names_axis "X" cmd || names_axis "Y" cmd || names_axis "Z" cmd) in
  position (snd (_handle_G28 cmd gcode subcode st))
  = home_if (names_axis "Z" cmd || all) Z_AXIS
      (home_if (names_axis "Y" cmd || all) Y_AXIS
         (home_if (names_axis "X" cmd || all) X_AXIS (position st))).
Proof.
  intros all. unfold _handle_G28, G28_flags. simpl position.
  rewrite fold_G28_arg_spec. simpl homeX. simpl homeY. simpl homeZ.
  fold (names_axis "X" cmd) (names_axis "Y" cmd) (names_axis "Z" cmd).
  subst all.
  destruct (names_axis "X" cmd), (names_axis "Y" cmd), (names_axis "Z" cmd);
    reflexivity.
Qed.

(** *** G92 and M206 *)

Lemma G92_arg_other pos token :
  (forall label value, In (label, value) (labelled_arg token) ->
                       ~ In label ["E"; "X"; "Y"; "Z"]%char) ->
  G92_arg pos token = pos.
Proof.
  unfold G92_arg, labelled_arg. intros H.
  destruct (REGEX_FLOAT_ARG_search token) as [[label value] |]; [| reflexivity].
  specialize (H (upper_ascii label) value (or_introl eq_refl)).
  unfold label_is.
  repeat match goal with
         | |- context [Ascii.eqb ?c ?d] => destruct (Ascii.eqb_spec c d)
         end; try reflexivity; exfalso; apply H; simpl; auto.
Qed.

Lemma M206_arg_other pos token :
  (forall label value, In (label, value) (labelled_arg token) ->
                       ~ In label ["X"; "Y"; "Z"]%char) ->
  M206_arg pos token = pos.
Proof.
  unfold M206_arg, labelled_arg. intros H.
  destruct (REGEX_FLOAT_ARG_search token) as [[label value] |]; [| reflexivity].
  specialize (H (upper_ascii label) value (or_introl eq_refl)).
  unfold label_is.
  repeat match goal with
         | |- context [Ascii.eqb ?c ?d] => destruct (Ascii.eqb_spec c d)
         end; try reflexivity; exfalso; apply H; simpl; auto.
Qed.

Lemma fold_left_fixed (step : Position -> string -> Position) tokens pos :
  (forall token, In token tokens -> forall p, step p token = p) ->
  fold_left step tokens pos = pos.
Proof.
  revert pos. induction tokens as [| token rest IH]; intros pos H; simpl;
    [reflexivity |].
  rewrite H by (now left). apply IH. intros t Ht. apply H. now right.
Qed.

(** X11 -- a G92 with no argument labelled E, X, Y or Z, and an M206 with
    none labelled X, Y or Z (its P and T arguments are not read), return
    [None] and leave the state as it is. *)
Theorem handle_G92_M206_other_arguments cmd gcode subcode st :
  (no_argument_labelled ["E"; "X"; "Y"; "Z"]%char cmd ->
   _handle_G92 cmd gcode subcode st = (Return PyNone, st))
  /\ (no_argument_labelled ["X"; "Y"; "Z"]%char cmd ->
      _handle_M206 cmd gcode subcode st = (Return PyNone, st)).
Proof.
  unfold no_argument_labelled, labelled_args.
  split; intros H.
  - unfold _handle_G92. f_equal. rewrite <- (with_position_same st) at 2.
    unfold with_position. f_equal.
    apply fold_left_fixed. intros token Hin p. apply G92_arg_other.
    intros label value Hl. apply (H label value).
    apply in_flat_map. now exists token.
  - unfold _handle_M206. f_equal. rewrite <- (with_position_same st) at 2.
    unfold with_position. f_equal.
    apply fold_left_fixed. intros token Hin p. apply M206_arg_other.
    intros label value Hl. apply (H label value).
    apply in_flat_map. now exists token.
Qed.

(** *** The dispatcher *)

(** X12 -- a code with no handler of its own -- any code outside of the
    thirteen, among them the thirteen in lower case -- is counted and
    handed, with the command and the subcode, to the extended handler of
    the collaborator, whose result is returned. *)
Theorem handleGcode_falls_back cmd gcode subcode st :
  ~ In gcode handled_codes ->
  handleGcode cmd gcode subcode st
  = returned (processExtendedGcode cmd gcode subcode (count_command st)).
Proof.
  intros H. unfold handleGcode, getattr_handle, handler_table, lookup.
  repeat match goal with
         | |- context [String.eqb ?a ?b] =>
             destruct (String.eqb_spec a b);
             [exfalso; apply H; subst; unfold handled_codes; simpl; tauto |]
         end.
  reflexivity.
Qed.

(** *** G10 and G11 *)

(** X13 -- the only exception of [_handle_G10] is the [IndexError] of
    line 304, and it needs an empty piece among the arguments; and when
    the marker that [ignoreGcodeCommand] returns is not [None], a G11, and
    a G10 with no argument that begins with P or L, never return [None]:
    they are not passed on unchanged. *)
Theorem retraction_commands_never_pass cmd gcode subcode st :
  (forall e, fst (_handle_G10 cmd gcode subcode st) = Raise e ->
             e = IndexError /\ In "" (tl (REGEX_SPLIT_split cmd)))
  /\ ((forall st', fst (ignoreGcodeCommand st') <> PyNone) ->
      fst (_handle_G11 cmd gcode subcode st) <> Return PyNone
      /\ (existsb begins_with_P_or_L (tl (REGEX_SPLIT_split cmd)) = false ->
          fst (_handle_G10 cmd gcode subcode st) <> Return PyNone)).
Proof.
  assert (Hsup : forall r, (forall st', fst (ignoreGcodeCommand st') <> PyNone) ->
                           fst (suppress_unless_replaced r) <> Return PyNone).
  { intros r Hign. unfold suppress_unless_replaced.
    destruct (fst r) eqn:E; simpl.
    - intros H. injection H as H. exact (Hign _ H).
    - discriminate.
    - discriminate. }
  assert (Hret : forall r e, fst (suppress_unless_replaced r) <> Raise e).
  { intros r e. unfold suppress_unless_replaced. destruct (fst r); discriminate. }
  unfold _handle_G10, _handle_G11.
  destruct (G10_tool_offset_cases (tl (REGEX_SPLIT_split cmd)))
    as [[-> Hin] | [[-> Hex] | [-> Hex]]].
  - split.
    + intros e H. injection H as <-. now split.
    + intros Hign. split; [now apply Hsup | intros _; discriminate].
  - split.
    + intros e H. discriminate H.
    + intros Hign. split; [now apply Hsup |].
      rewrite Hex. discriminate.
  - split.
    + intros e H. exfalso. exact (Hret _ _ H).
    + intros Hign. split; [now apply Hsup | intros _; now apply Hsup].
Qed.

End FurtherHandlerProperties.

(** *** Letter case in G2, G3, G28, G92 and M206 *)

Section CaseInsensitiveHandlers.

Context {Position Other : Type}.
Context {axes : AxisPosition Position}.
Context {api : ExcludeRegionStateApi Position Other}.

Variable f : ascii -> ascii.
Hypothesis Hf : case_map f.

Lemma upper_case s : upper (map_chars f s) = upper s.
Proof.
  unfold upper. induction s as [| c s IH]; simpl; [reflexivity |].
  now rewrite (cm_upper Hf), IH.
Qed.

Lemma G28_arg_case h arg : G28_arg h (map_chars f arg) = G28_arg h arg.
Proof. unfold G28_arg. now rewrite upper_case. Qed.

Lemma G92_arg_case (pos : Position) token :
  G92_arg pos (map_chars f token) = G92_arg pos token.
Proof.
  unfold G92_arg. rewrite (REGEX_FLOAT_ARG_search_case Hf).
  destruct (REGEX_FLOAT_ARG_search token) as [[label value] |]; [| reflexivity].
  now rewrite (cm_upper Hf).
Qed.

Lemma M206_arg_case (pos : Position) token :
  M206_arg pos (map_chars f token) = M206_arg pos token.
Proof.
  unfold M206_arg. rewrite (REGEX_FLOAT_ARG_search_case Hf).
  destruct (REGEX_FLOAT_ARG_search token) as [[label value] |]; [| reflexivity].
  now rewrite (cm_upper Hf).
Qed.

Lemma G2_arg_case (pos : Position) a token :
  G2_arg pos a (map_chars f token) = G2_arg pos a token.
Proof.
  unfold G2_arg. rewrite (REGEX_FLOAT_ARG_search_case Hf).
  destruct (REGEX_FLOAT_ARG_search token) as [[label value] |]; [| reflexivity].
  now rewrite (cm_upper Hf).
Qed.

Lemma handlers_case cmd gcode subcode (st : ExcludeRegionState Position Other) :
  G2_args (position st) (map_chars f cmd) = G2_args (position st) cmd
  /\ _handle_G28 (map_chars f cmd) gcode subcode st = _handle_G28 cmd gcode subcode st
  /\ _handle_G92 (map_chars f cmd) gcode subcode st = _handle_G92 cmd gcode subcode st
  /\ _handle_M206 (map_chars f cmd) gcode subcode st = _handle_M206 cmd gcode subcode st.
Proof.
  unfold G2_args, _handle_G28, G28_flags, _handle_G92, _handle_M206.
  rewrite (REGEX_SPLIT_split_case Hf), tl_map.
  rewrite (fold_left_map_same _ _ (G2_arg_case (position st))).
  rewrite (fold_left_map_same _ _ G28_arg_case).
  repeat split.
  - unfold with_position. do 2 f_equal.
    apply (fold_left_map_same _ _ G92_arg_case).
  - unfold with_position. do 2 f_equal.
    apply (fold_left_map_same _ _ M206_arg_case).
Qed.

End CaseInsensitiveHandlers.

Section CaseStatement.

Context {Position Other : Type}.
Context {axes : AxisPosition Position}.
Context {api : ExcludeRegionStateApi Position Other}.

(** X14 -- the case of the letters of a command plays no part in what G2
    and G3 read from it, nor in what G28, G92 and M206 do: two commands
    with the same upper-case form give the same arc arguments and the same
    result and state. *)
Theorem handlers_ignore_letter_case cmd cmd' gcode subcode
  (st : ExcludeRegionState Position Other) :
  upper cmd = upper cmd' ->
  G2_args (position st) cmd = G2_args (position st) cmd'
  /\ _handle_G28 cmd gcode subcode st = _handle_G28 cmd' gcode subcode st
  /\ _handle_G92 cmd gcode subcode st = _handle_G92 cmd' gcode subcode st
  /\ _handle_M206 cmd gcode subcode st = _handle_M206 cmd' gcode subcode st.
Proof.
  intros H.
  destruct (handlers_case upper_ascii_case_map cmd gcode subcode st)
    as (A1 & A2 & A3 & A4).
  destruct (handlers_case upper_ascii_case_map cmd' gcode subcode st)
    as (B1 & B2 & B3 & B4).
  fold (upper cmd) in A1, A2, A3, A4. fold (upper cmd') in B1, B2, B3, B4.
  rewrite <- H in B1, B2, B3, B4.
  repeat split; congruence.
Qed.

End CaseStatement.

(** ** At-commands *)

Section AtCommandProperties.

Context {Position Other : Type}.
Context {at_api : AtCommandApi Position Other}.

Implicit Type st : ExcludeRegionState Position Other.

Lemma at_entries_idle entries cmd parameters st :
  (forall entry, In entry entries -> matches entry cmd parameters = true ->
                 action entry = OTHER_ACTION) ->
  at_entries entries cmd parameters st = ([], st).
Proof.
  induction entries as [| entry rest IH]; intros H; simpl; [reflexivity |].
  assert (Hrest : at_entries rest cmd parameters st = ([], st))
    by (apply IH; intros e He; apply H; now right).
  destruct (matches entry cmd parameters) eqn:E; [| exact Hrest].
  rewrite (H entry (or_introl eq_refl) E). exact Hrest.
Qed.

Lemma at_entries_silent entries cmd parameters st :
  (forall entry, In entry entries -> matches entry cmd parameters = true ->
                 action entry <> DISABLE_EXCLUSION) ->
  fst (at_entries entries cmd parameters st) = [].
Proof.
  revert st. induction entries as [| entry rest IH]; intros st H; simpl;
    [reflexivity |].
  assert (Hrest : forall st', fst (at_entries rest cmd parameters st') = [])
    by (intros st'; apply IH; intros e He; apply H; now right).
  destruct (matches entry cmd parameters) eqn:E; [| apply Hrest].
  pose proof (H entry (or_introl eq_refl) E) as Ha.
  destruct (action entry); [apply Hrest | contradiction | apply Hrest].
Qed.

(** X15 -- [handleAtCommand] sends nothing and changes nothing for an
    at-command with no registered entries and for one whose matching
    entries have neither of the two actions (in particular when no entry
    matches); and it sends nothing as long as no matching entry has the
    action that disables exclusion. *)
Theorem handleAtCommand_silent cmd parameters st :
  (atCommandActions_get st cmd = None ->
   handleAtCommand cmd parameters st = ([], st))
  /\ (forall entries,
         atCommandActions_get st cmd = Some entries ->
         (forall entry, In entry entries -> matches entry cmd parameters = true ->
                        action entry = OTHER_ACTION) ->
         handleAtCommand cmd parameters st = ([], st))
  /\ (forall entries,
         atCommandActions_get st cmd = Some entries ->
         (forall entry, In entry entries -> matches entry cmd parameters = true ->
                        action entry <> DISABLE_EXCLUSION) ->
         fst (handleAtCommand cmd parameters st) = []).
Proof.
  unfold handleAtCommand. split; [| split].
  - intros ->. reflexivity.
  - intros entries -> H. now apply at_entries_idle.
  - intros entries -> H. now apply at_entries_silent.
Qed.

(** The commands that are sent are those of the matching entries that
    disable exclusion, entry after entry.  Here for a collaborator whose
    [disableExclusion] gives the same commands [commands] at every call and
    leaves the state: each such entry sends [commands] once. *)
Lemma at_entries_sends entries cmd parameters st commands :
  (forall text st', disableExclusion text st' = (commands, st')) ->
  (forall text st', enableExclusion text st' = st') ->
  at_entries entries cmd parameters st
  = (flat_map
       (fun entry =>
          if matches entry cmd parameters then
            match action entry with
            | DISABLE_EXCLUSION => commands
            | _ => []
            end
          else [])
       entries, st).
Proof.
  intros Hd He. induction entries as [| entry rest IH]; simpl; [reflexivity |].
  destruct (matches entry cmd parameters); [| exact IH].
  destruct (action entry); simpl.
  - rewrite He. exact IH.
  - rewrite Hd, IH. reflexivity.
  - exact IH.
Qed.

End AtCommandProperties.

(** ** The further statements on the printer with no exclusion logic *)

Lemma float_small_examples :
  float_ "0" = 0 /\ float_ "1" = 1 /\ float_ "2" = 2
  /\ float_ "0.5" = 1 / 2 /\ float_ "-0.5" = - (1 / 2).
Proof.
  unfold float_.
  replace (float_literal "0") with (0 # 1)%Q by reflexivity.
  replace (float_literal "1") with (1 # 1)%Q by reflexivity.
  replace (float_literal "2") with (2 # 1)%Q by reflexivity.
  replace (float_literal "0.5") with (5 # 10)%Q by reflexivity.
  replace (float_literal "-0.5") with (-5 # 10)%Q by reflexivity.
  unfold Q2R. simpl. repeat split; lra.
Qed.

Lemma arcAngularTravel_clockwise_neg x y endX endY i j :
  arcAngularTravel x y endX endY i j true < 0.
Proof.
  pose proof (arcSweep_clockwise_neg x y endX endY i j) as Hs.
  unfold arcAngularTravel.
  rewrite (@Reqb_false (arcSweep _ _ _ _ _ _ _) 0) by lra. exact Hs.
Qed.

Lemma quarter_turn_length :
  0 < arcAngularTravel 0 0 (1 / 2) (- (1 / 2)) (1 / 2) 0 false * hypot (1 / 2) 0 <= 1.
Proof.
  pose proof PI_RGT_0 as Hpi. pose proof PI_4 as Hpi4.
  rewrite quarter_turn_sweep, hypot_0_r, Rabs_pos_eq by lra. lra.
Qed.

Lemma planArc_raises_iff_witness :
  exists e, planArc Bench.origin (1 / 2) (- (1 / 2)) (1 / 2) 0 false = Raise e.
Proof.
  apply (proj1 (planArc_raises_iff Bench.origin (1 / 2) (- (1 / 2)) (1 / 2) 0 false)).
  exact quarter_turn_length.
Defined.

Lemma planArc_returns_at_most_one_point_witness :
  planArc Bench.origin 1 1 1 0 true = Return [1; 1]
  /\ exists px py,
       planArc Bench.origin 0 0 0 1 false = Return [px; py; 0; 0]
       /\ (px - (0 + 0)) * (px - (0 + 0)) + (py - (0 + 1)) * (py - (0 + 1))
          = 0 * 0 + 1 * 1.
Proof.
  split.
  - pose proof (proj1 (planArc_returns_at_most_one_point
                         Bench.origin 1 1 1 0 true)) as H.
    cbv zeta in H.
    change (current X_AXIS (position Bench.origin)) with 0 in H.
    change (current Y_AXIS (position Bench.origin)) with 0 in H.
    apply H.
    pose proof (arcAngularTravel_clockwise_neg 0 0 1 1 1 0) as Ht.
    pose proof (hypot_nonneg 1 0) as Hh.
    nra.
  - pose proof (proj2 (planArc_returns_at_most_one_point
                         Bench.origin 0 0 0 1 false)) as H.
    cbv zeta in H.
    change (current X_AXIS (position Bench.origin)) with 0 in H.
    change (current Y_AXIS (position Bench.origin)) with 0 in H.
    apply H.
    pose proof PI_RGT_0 as Hpi. pose proof PI2_1 as Hpi2.
    rewrite full_circle_travel, hypot_0_l, Rabs_pos_eq by lra.
    unfold TWO_PI. lra.
Defined.

Lemma bench_G2_args_straight :
  G2_args (position Bench.origin) "G2 X1 Y1 I1 J0"
  = mkArcArgs None None 1 1 0 None 1 0.
Proof.
  destruct float_small_examples as (H0 & H1 & _).
  rewrite <- H0 at 2. rewrite <- H1. reflexivity.
Qed.

Lemma handleGcode_G2_is_a_straight_move_witness :
  handleGcode "G2 X1 Y1 I1 J0" "G2" None Bench.origin
  = returned
      (processLinearMoves "G2 X1 Y1 I1 J0" None None (Some 0) [Some 1; Some 1]
         (count_command Bench.origin)).
Proof.
  pose proof (handleGcode_G2_is_a_straight_move "G2 X1 Y1 I1 J0" None Bench.origin) as H.
  cbv zeta in H. rewrite bench_G2_args_straight in H.
  apply H; [reflexivity | left; simpl; lra].
Defined.

Lemma bench_G3_args_quarter :
  G2_args (position Bench.origin) "G3 X0.5 Y-0.5 I0.5 J0"
  = mkArcArgs None None (1 / 2) (- (1 / 2)) 0 None (1 / 2) 0.
Proof.
  destruct float_small_examples as (H0 & _ & _ & H5 & Hm5).
  rewrite <- H0 at 2. rewrite <- Hm5, <- H5. reflexivity.
Qed.

Lemma bench_G2_args_radius :
  G2_args (position Bench.origin) "G2 X2 Y0 R0.5"
  = mkArcArgs None None 2 0 0 (Some (1 / 2)) 0 0.
Proof.
  destruct float_small_examples as (H0 & _ & H2 & H5 & _).
  rewrite <- H5, <- H2. rewrite <- H0 at 1. reflexivity.
Qed.

Lemma arc_errors_leave_handleGcode_witness :
  handleGcode "G3 X0.5 Y-0.5 I0.5 J0" "G3" None Bench.origin
  = (Raise ZeroDivisionError, count_command Bench.origin)
  /\ handleGcode "G2 X2 Y0 R0.5" "G2" None Bench.origin
     = (Raise ValueError, count_command Bench.origin).
Proof.
  split.
  - pose proof (proj1 (arc_errors_leave_handleGcode
                         "G3 X0.5 Y-0.5 I0.5 J0" None Bench.origin)) as H.
    cbv zeta in H. rewrite bench_G3_args_quarter in H.
    apply H; [reflexivity | left; simpl; lra |].
    exact quarter_turn_length.
  - pose proof (proj2 (arc_errors_leave_handleGcode
                         "G2 X2 Y0 R0.5" None Bench.origin)) as H.
    cbv zeta in H. rewrite bench_G2_args_radius in H.
    apply (H "G2" (1 / 2)); [now left | reflexivity | lra | left; simpl; lra |].
    simpl arc_x. simpl arc_y.
    change (current X_AXIS (position Bench.origin)) with 0.
    change (current Y_AXIS (position Bench.origin)) with 0.
    replace (2 - 0) with 2 by lra. replace (0 - 0) with 0 by lra.
    rewrite hypot_0_r, Rabs_pos_eq by lra. lra.
Defined.

Lemma computeCenterOffsets_degenerate_and_errors_witness :
  _computeCenterOffsets Bench.origin 1 1 0 true = Return (0, 0)
  /\ _computeCenterOffsets Bench.origin 0 0 5 false = Return (0, 0).
Proof.
  split.
  - apply (proj1 (computeCenterOffsets_degenerate_and_errors Bench.origin 1 1 0 true)).
    now left.
  - apply (proj1 (computeCenterOffsets_degenerate_and_errors Bench.origin 0 0 5 false)).
    right. split; reflexivity.
Defined.

Lemma computeCenterOffsets_axis_chord_on_circle_witness :
  exists i j,
    _computeCenterOffsets Bench.origin 2 0 2 false = Return (i, j)
    /\ i * i + j * j = 2 * 2
    /\ (i - (2 - 0)) * (i - (2 - 0)) + (j - (0 - 0)) * (j - (0 - 0)) = 2 * 2.
Proof.
  pose proof (@computeCenterOffsets_axis_chord_on_circle _ _ _ Bench.origin 2 0 2) as H.
  cbv zeta in H.
  change (current X_AXIS (position Bench.origin)) with 0 in H.
  change (current Y_AXIS (position Bench.origin)) with 0 in H.
  apply H.
  - lra.
  - right. lra.
  - replace (2 - 0) with 2 by lra. replace (0 - 0) with 0 by lra.
    rewrite hypot_0_r, Rabs_pos_eq by lra. lra.
Defined.

Lemma handle_G92_M206_other_arguments_witness :
  _handle_G92 "G92 F100" "G92" None Bench.origin = (Return PyNone, Bench.origin)
  /\ _handle_M206 "M206 P1 T2" "M206" None Bench.origin = (Return PyNone, Bench.origin).
Proof.
  split.
  - apply (proj1 (handle_G92_M206_other_arguments "G92 F100" "G92" None Bench.origin)).
    intros label value Hin.
    change (labelled_args "G92 F100") with [("F"%char, "100")] in Hin.
    destruct Hin as [H | []]. injection H as <- _.
    simpl. intros [H | [H | [H | [H | []]]]]; discriminate H.
  - apply (proj2 (handle_G92_M206_other_arguments "M206 P1 T2" "M206" None Bench.origin)).
    intros label value Hin.
    change (labelled_args "M206 P1 T2") with [("P"%char, "1"); ("T"%char, "2")] in Hin.
    destruct Hin as [H | [H | []]]; injection H as <- _;
      simpl; intros [H | [H | [H | []]]]; discriminate H.
Defined.

Lemma handleGcode_falls_back_witness :
  handleGcode "g1 x10" "g1" None Bench.origin
  = returned (processExtendedGcode "g1 x10" "g1" None (count_command Bench.origin)).
Proof.
  apply handleGcode_falls_back.
  unfold handled_codes. simpl.
  intros H. repeat (destruct H as [H | H]; [discriminate H |]). exact H.
Defined.

Lemma retraction_commands_never_pass_witness :
  fst (_handle_G11 "G11" "G11" None Bench.origin) <> Return PyNone
  /\ fst (_handle_G10 "G10S1" "G10" None Bench.origin) <> Return PyNone
  /\ In "" (tl (REGEX_SPLIT_split "G10 S1")).
Proof.
  assert (Hign : forall st' : Bench.State, fst (ignoreGcodeCommand st') <> PyNone)
    by (intros st'; simpl; discriminate).
  split; [| split].
  - apply (proj1 (proj2 (retraction_commands_never_pass
                           "G11" "G11" None Bench.origin) Hign)).
  - apply (proj2 (proj2 (retraction_commands_never_pass
                           "G10S1" "G10" None Bench.origin) Hign)).
    reflexivity.
  - apply (proj1 (retraction_commands_never_pass "G10 S1" "G10" None Bench.origin)
             IndexError).
    reflexivity.
Defined.

Lemma handlers_ignore_letter_case_witness :
  _handle_G92 "g92 x5 e1" "G92" None Bench.origin
  = _handle_G92 "G92 X5 E1" "G92" None Bench.origin.
Proof.
  apply (handlers_ignore_letter_case "g92 x5 e1" "G92 X5 E1" "G92" None Bench.origin).
  reflexivity.
Defined.

Example at_command_off :
  handleAtCommand "@exclude" "off" Bench.origin
  = (["G1 E1 F2400"; "G90"], Bench.origin).
Proof. reflexivity. Qed.

Lemma handleAtCommand_silent_witness :
  handleAtCommand "@pause" "" Bench.origin = ([], Bench.origin)
  /\ fst (handleAtCommand "@exclude" "on" Bench.origin) = [].
Proof.
  split.
  - apply (proj1 (handleAtCommand_silent "@pause" "" Bench.origin)). reflexivity.
  - apply (proj2 (proj2 (handleAtCommand_silent "@exclude" "on" Bench.origin))
             [BenchAt.on_entry; BenchAt.idle_entry; BenchAt.off_entry]);
      [reflexivity |].
    intros entry [<- | [<- | [<- | []]]] Hm; simpl in Hm;
      solve [discriminate Hm | discriminate].
Defined.

(** ** The arguments of G2 and G3, and the counter over a print *)

Lemma last_arg_from_app (T : Type) (read : string -> T) found label args args' :
  last_arg_from read found label (args ++ args')
  = last_arg_from read (last_arg_from read found label args) label args'.
Proof.
  revert found. induction args as [| [l v] args IH]; intros found; simpl;
    [reflexivity | apply IH].
Qed.

Section ArcArguments.

Context {Position Other : Type}.
Context {axes : AxisPosition Position}.
Context {api : ExcludeRegionStateApi Position Other}.

(** The eight fields after the arguments [args], from the fields [a]. *)
Lemma G2_arg_last (pos : Position) a token :
  mkArcArgs
    (last_arg_from (fun v => Some (logicalToNative E_AXIS pos (float_ v)))
       (arc_extruderPosition a) "E" (labelled_arg token))
    (last_arg_from (fun v => Some (float_ v)) (arc_feedRate a) "F" (labelled_arg token))
    (last_arg_from (fun v => logicalToNative X_AXIS pos (float_ v))
       (arc_x a) "X" (labelled_arg token))
    (last_arg_from (fun v => logicalToNative Y_AXIS pos (float_ v))
       (arc_y a) "Y" (labelled_arg token))
    (last_arg_from (fun v => logicalToNative Z_AXIS pos (float_ v))
       (arc_z a) "Z" (labelled_arg token))
    (last_arg_from (fun v => Some (float_ v)) (arc_radius a) "R" (labelled_arg token))
    (last_arg_from (fun v => logicalToNative X_AXIS pos (float_ v))
       (arc_i a) "I" (labelled_arg token))
    (last_arg_from (fun v => logicalToNative Y_AXIS pos (float_ v))
       (arc_j a) "J" (labelled_arg token))
  = G2_arg pos a token.
Proof.
  unfold G2_arg, labelled_arg.
  destruct (REGEX_FLOAT_ARG_search token) as [[label value] |];
    [| destruct a; reflexivity].
  simpl. set (L := upper_ascii label). clearbody L.
  unfold G2_arg_j, G2_arg_i, G2_arg_xyzefr, label_is.
  destruct (Ascii.eqb_spec L "X"); [subst L; reflexivity |].
  destruct (Ascii.eqb_spec L "Y"); [subst L; reflexivity |].
  destruct (Ascii.eqb_spec L "Z"); [subst L; reflexivity |].
  destruct (Ascii.eqb_spec L "E"); [subst L; reflexivity |].
  destruct (Ascii.eqb_spec L "F"); [subst L; reflexivity |].
  destruct (Ascii.eqb_spec L "R"); [subst L; reflexivity |].
  destruct (Ascii.eqb_spec L "I"); [subst L; destruct a; reflexivity |].
  destruct (Ascii.eqb_spec L "J"); [subst L; destruct a; reflexivity |].
  destruct a; reflexivity.
Qed.

Lemma fold_G2_arg_last (pos : Position) tokens a :
  fold_left (G2_arg pos) tokens a
  = mkArcArgs
      (last_arg_from (fun v => Some (logicalToNative E_AXIS pos (float_ v)))
         (arc_extruderPosition a) "E" (flat_map labelled_arg tokens))
      (last_arg_from (fun v => Some (float_ v)) (arc_feedRate a) "F"
         (flat_map labelled_arg tokens))
      (last_arg_from (fun v => logicalToNative X_AXIS pos (float_ v))
         (arc_x a) "X" (flat_map labelled_arg tokens))
      (last_arg_from (fun v => logicalToNative Y_AXIS pos (float_ v))
         (arc_y a) "Y" (flat_map labelled_arg tokens))
      (last_arg_from (fun v => logicalToNative Z_AXIS pos (float_ v))
         (arc_z a) "Z" (flat_map labelled_arg tokens))
      (last_arg_from (fun v => Some (float_ v)) (arc_radius a) "R"
         (flat_map labelled_arg tokens))
      (last_arg_from (fun v => logicalToNative X_AXIS pos (float_ v))
         (arc_i a) "I" (flat_map labelled_arg tokens))
      (last_arg_from (fun v => logicalToNative Y_AXIS pos (float_ v))
         (arc_j a) "J" (flat_map labelled_arg tokens)).
Proof.
  revert a. induction tokens as [| token rest IH]; intros a; simpl.
  - destruct a; reflexivity.
  - rewrite IH, !last_arg_from_app, <- (G2_arg_last pos a token). reflexivity.
Qed.

(** X16 -- what G2 and G3 read from a command: the end point and Z are
    the last X, Y and Z arguments, made native, and the current native
    position of the axis when the command has none; E is the last E
    argument, made native, F the last F and the radius the last R, each
    [None] when absent; the offsets are the last I and J arguments, made
    native on the X and on the Y axis, and 0 when absent.  Labels are read
    in either case. *)
Theorem G2_args_last_argument (pos : Position) cmd :
  G2_args pos cmd
  = mkArcArgs
      (last_arg_from (fun v => Some (logicalToNative E_AXIS pos (float_ v)))
         None "E" (labelled_args cmd))
      (last_arg_from (fun v => Some (float_ v)) None "F" (labelled_args cmd))
      (last_arg_from (fun v => logicalToNative X_AXIS pos (float_ v))
         (current X_AXIS pos) "X" (labelled_args cmd))
      (last_arg_from (fun v => logicalToNative Y_AXIS pos (float_ v))
         (current Y_AXIS pos) "Y" (labelled_args cmd))
      (last_arg_from (fun v => logicalToNative Z_AXIS pos (float_ v))
         (current Z_AXIS pos) "Z" (labelled_args cmd))
      (last_arg_from (fun v => Some (float_ v)) None "R" (labelled_args cmd))
      (last_arg_from (fun v => logicalToNative X_AXIS pos (float_ v))
         0 "I" (labelled_args cmd))
      (last_arg_from (fun v => logicalToNative Y_AXIS pos (float_ v))
         0 "J" (labelled_args cmd)).
Proof. unfold G2_args. rewrite fold_G2_arg_last. reflexivity. Qed.

Lemma handleGcode_count cmd gcode subcode (st : ExcludeRegionState Position Other) :
  keeps_numCommands ->
  numCommands (snd (handleGcode cmd gcode subcode st)) = (numCommands st + 1)%Z.
Proof.
  intros H. unfold handleGcode.
  rewrite (getattr_handle_count gcode cmd gcode subcode (count_command st) H).
  reflexivity.
Qed.

(** X17 -- over a print, the counter counts the calls: with a collaborator
    whose methods leave the counter alone, after [handleGcode] has been
    called on each command of a list the counter is above its first value
    by the length of the list, whatever the commands are and whatever each
    call returns or raises. *)
Theorem numCommands_counts_the_calls calls (st : ExcludeRegionState Position Other) :
  keeps_numCommands ->
  numCommands (after_commands calls st)
  = (numCommands st + Z.of_nat (length calls))%Z.
Proof.
  intros H. revert st.
  induction calls as [| [[cmd gcode] subcode] rest IH]; intros st.
  - simpl. lia.
  - cbn [after_commands length]. rewrite IH, (handleGcode_count _ _ _ _ H). lia.
Qed.

End ArcArguments.

Lemma numCommands_counts_the_calls_witness :
  numCommands
    (after_commands
       [("G28", "G28", None); ("G3 X0.5 Y-0.5 I0.5 J0", "G3", None);
        ("M117 hello", "M117", None)]
       Bench.origin)
  = (numCommands Bench.origin + 3)%Z.
Proof.
  apply (numCommands_counts_the_calls
           [("G28", "G28", None); ("G3 X0.5 Y-0.5 I0.5 J0", "G3", None);
            ("M117 hello", "M117", None)] Bench.origin).
  exact bench_keeps_numCommands.
Defined.
